(** * WIN video test platform: recorder, attempt store and recording screen

    A shallow embedding of [recorder.ts], [db.ts] and the recording screen
    ([main.ts]) of the WIN fitness-test application, together with the
    properties of the recording session lifecycle and of the attempt store.

    The browser is modelled as far as the code observes it:
    - a string is the bytes of its UTF-8 encoding;
    - a [Blob] is its bytes and its declared type, normalised as the [Blob]
      constructor does;
    - a [MediaRecorder] is its run-state, the [mimeType] it reports, and
      whether its terminal [stop] event is queued;
    - time is the clock read by [performance.now()], kept in whole
      microseconds; [Math.round] takes a difference to the nearest
      millisecond, and [setTimeout] takes its delay as a signed 32-bit
      number of milliseconds;
    - IndexedDB is a finite map from database names to versioned databases,
      each a finite map from object-store names to keyed records.

    Asynchrony is modelled by events: every callback the code registers
    (click handlers, recorder listeners, timer callbacks, the continuation
    of an [await]) is one atomic step of the world, and a run of the program
    is a list of events.  A promise reaction ([then]/[catch]) runs in the
    microtask checkpoint that follows the listener settling the promise, so
    it belongs to the same step. *)

From Stdlib Require Import ZArith Lia.
From Stdlib.Strings Require Import Byte Ascii.
From stdpp Require Import base option list numbers strings gmap fin_maps.

Open Scope string_scope.
Open Scope Z_scope.
Open Scope list_scope.

(** ** The host platform as the code observes it *)

Module Host.

(** A binary large object: its content and the media type it declares. *)
Record Blob := mkBlob {
  blob_bytes : list byte;
  blob_type : string;
}.

Definition blob_size (b : Blob) : nat := length (blob_bytes b).

(** A character in the range U+0020 to U+007E.  In UTF-8 every other
    character shows as bytes outside that range. *)
Definition printable (a : ascii) : bool :=
  let n := nat_of_ascii a in (32 <=? n)%nat && (n <=? 126)%nat.

(** ASCII lower case. *)
Definition toLower (a : ascii) : ascii :=
  let n := nat_of_ascii a in
  if (65 <=? n)%nat && (n <=? 90)%nat then ascii_of_nat (n + 32) else a.

(** The [type] a [Blob] gets from the [type] option of its constructor: the
    empty string when the option has a character outside U+0020 to U+007E,
    and otherwise the option in ASCII lower case. *)
Definition normalizeType (ty : string) : string :=
  let l := String.list_ascii_of_string ty in
  if forallb printable l
  then String.string_of_list_ascii (map toLower l)
  else "".

(** [new Blob(parts, { type })]: the parts in order, one after another. *)
Definition newBlob (parts : list Blob) (ty : string) : Blob :=
  mkBlob (concat (map blob_bytes parts)) (normalizeType ty).

(** [performance.now()] is read in whole microseconds. *)
Definition ticksPerMs : Z := 1000.

(** [Math.round] of a time difference of [ticks] microseconds, in
    milliseconds: the nearest integer, and the upper one at a tie. *)
Definition roundMs (ticks : Z) : Z := (2 * ticks + ticksPerMs) / (2 * ticksPerMs).

(** The conversion of a whole number to a signed 32-bit integer. *)
Definition toInt32 (n : Z) : Z :=
  let m := n mod 2 ^ 32 in
  if m <? 2 ^ 31 then m else m - 2 ^ 32.

(** The delay [setTimeout(handler, ms)] runs with, in milliseconds: [ms] as
    a signed 32-bit integer, and 0 when that is negative. *)
Definition timerDelay (ms : Z) : Z := Z.max 0 (toInt32 ms).

(** [MediaRecorder.state]. *)
Inductive RecordingState := inactive | recording | paused.

(** What differs from browser to browser: the container/codec strings the
    recorder accepts, and the [mimeType] a recorder reports once built with
    a given (or no) requested type. *)
Record Env := mkEnv {
  isTypeSupported : string → bool;
  reportedMimeType : option string → string;
}.

(** The platform recorder object.  [stopCalls] counts the invocations of
    [recorder.stop()], the hardware stop signal; [stopQueued] holds while the
    platform still owes the terminal [stop] event. *)
Record MediaRecorder := mkMediaRecorder {
  stream : nat;
  state : RecordingState;
  recorderMimeType : string;
  stopQueued : bool;
  stopCalls : nat;
}.

(** [new MediaRecorder(stream, { mimeType })] or [new MediaRecorder(stream)]. *)
Definition newMediaRecorder (E : Env) (s : nat) (requested : option string)
  : MediaRecorder :=
  mkMediaRecorder s inactive (reportedMimeType E requested) false 0.

(** [recorder.start()]. *)
Definition start (r : MediaRecorder) : MediaRecorder :=
  mkMediaRecorder (stream r) recording (recorderMimeType r) (stopQueued r)
                  (stopCalls r).

(** [recorder.stop()]: the recorder becomes inactive at once and the [stop]
    event is queued; on an inactive recorder the call changes nothing but
    is still a call. *)
Definition stop (r : MediaRecorder) : MediaRecorder :=
  match state r with
  | inactive =>
      mkMediaRecorder (stream r) inactive (recorderMimeType r) (stopQueued r)
                      (S (stopCalls r))
  | _ =>
      mkMediaRecorder (stream r) inactive (recorderMimeType r) true
                      (S (stopCalls r))
  end.

(** The platform gives up on a recording: the recorder is inactivated, the
    [error] event is fired, and the [stop] event follows. *)
Definition fail (r : MediaRecorder) : MediaRecorder :=
  mkMediaRecorder (stream r) inactive (recorderMimeType r) true (stopCalls r).

(** The platform delivers the queued [stop] event. *)
Definition stopDelivered (r : MediaRecorder) : MediaRecorder :=
  mkMediaRecorder (stream r) (state r) (recorderMimeType r) false (stopCalls r).

(** A promise, as far as its settlement goes. *)
Inductive Promise (A : Type) :=
| Pending
| Resolved (a : A)
| Rejected (message : string).
Arguments Pending {A}.
Arguments Resolved {A} a.
Arguments Rejected {A} message.

(** [a || b] on strings: the empty string is falsy. *)
Definition or_str (a b : string) : string :=
  if decide (a = "") then b else a.

(** [a || b] where [a] is a string or [undefined]. *)
Definition or_undef (a : option string) (b : string) : string :=
  match a with
  | Some s => or_str s b
  | None => b
  end.

Instance RecordingState_eq_dec : EqDecision RecordingState.
Proof. solve_decision. Defined.

End Host.

(** ** recorder.ts, first version: no timer, the requested type is reported *)

Module RecorderLegacy.
Import Host.

Record RecordingResult := mkRecordingResult {
  blob : Blob;
  mimeType : string;
  durationMs : Z;
}.

(** The nested conditional at the head of [recordVideo]. *)
Definition pickMimeType (E : Env) : string :=
  if isTypeSupported E "video/webm;codecs=vp9" then "video/webm;codecs=vp9"
  else if isTypeSupported E "video/webm;codecs=vp8" then "video/webm;codecs=vp8"
  else "video/webm".

(** What [recorder.onstop] resolves [stop()] with. *)
Definition onstop (E : Env) (chunks : list Blob) (startedAt endedAt : Z)
  : RecordingResult :=
  let mimeType := pickMimeType E in
  {| blob := newBlob chunks mimeType;
     mimeType := mimeType;
     durationMs := Z.max 0 (roundMs (endedAt - startedAt)) |}.

End RecorderLegacy.

(** ** recorder.ts, current version *)

Module Recorder.
Import Host.

Record RecordingResult := mkRecordingResult {
  blob : Blob;
  mimeType : string;
  durationMs : Z;
}.

Definition candidates : list string :=
  [ "video/webm;codecs=vp9";
    "video/webm;codecs=vp8";
    "video/webm";
    "video/mp4" ].

(** The [for (const t of candidates)] loop with its early [return]. *)
Fixpoint firstSupported (E : Env) (ts : list string) : option string :=
  match ts with
  | [] => None
  | t :: ts' => if isTypeSupported E t then Some t else firstSupported E ts'
  end.

Definition pickBestMimeType (E : Env) : option string :=
  firstSupported E candidates.

(** What [recordVideo] closes over: the recorder, the chosen type, the
    chunk buffer, the start time, the [done] promise and the pending
    auto-stop timer (the clock reading from which it is due, gone once it
    has fired). *)
Record Capture := mkCapture {
  recorder : MediaRecorder;
  chosen : option string;
  chunks : list Blob;
  startedAt : Z;
  done : Promise RecordingResult;
  autoStopAt : option Z;
}.

Definition defaultMaxDurationMs : Z := 90000.

(** [recordVideo(stream, maxDurationMs = 90_000)], called when the clock
    reads [now]; [maxDurationMs] is a whole number of milliseconds. *)
Definition recordVideo (E : Env) (now : Z) (s : nat) (maxDurationMs : option Z)
  : Capture :=
  let maxDurationMs := default defaultMaxDurationMs maxDurationMs in
  let chosen := pickBestMimeType E in
  let recorder :=
    match chosen with
    | Some c => newMediaRecorder E s (Some c)
    | None => newMediaRecorder E s None
    end in
  {| recorder := start recorder;
     chosen := chosen;
     chunks := [];
     startedAt := now;
     done := Pending;
     autoStopAt := Some (now + ticksPerMs * timerDelay maxDurationMs) |}.

Definition withRecorder (c : Capture) (r : MediaRecorder) : Capture :=
  mkCapture r (chosen c) (chunks c) (startedAt c) (done c) (autoStopAt c).

Definition withChunks (c : Capture) (cs : list Blob) : Capture :=
  mkCapture (recorder c) (chosen c) cs (startedAt c) (done c) (autoStopAt c).

Definition withDone (c : Capture) (d : Promise RecordingResult) : Capture :=
  mkCapture (recorder c) (chosen c) (chunks c) (startedAt c) d (autoStopAt c).

Definition withAutoStopAt (c : Capture) (t : option Z) : Capture :=
  mkCapture (recorder c) (chosen c) (chunks c) (startedAt c) (done c) t.

(** The [dataavailable] listener; [e.data] may be missing. *)
Definition onDataAvailable (data : option Blob) (c : Capture) : Capture :=
  match data with
  | Some d => if (0 <? blob_size d)%nat then withChunks c (chunks c ++ [d]) else c
  | None => c
  end.

(** [recorder.mimeType || chosen || "video/webm"]. *)
Definition actualMimeType (c : Capture) : string :=
  or_str (recorderMimeType (recorder c)) (or_undef (chosen c) "video/webm").

(** The value the [stop] listener passes to [resolve]. *)
Definition stopResult (endedAt : Z) (c : Capture) : RecordingResult :=
  let actualMimeType := actualMimeType c in
  {| blob := newBlob (chunks c) actualMimeType;
     mimeType := actualMimeType;
     durationMs := Z.max 0 (roundMs (endedAt - startedAt c)) |}.

(** The [stop] listener.  Settling a settled promise does nothing; the
    second component tells whether [done] was fulfilled by this call. *)
Definition onStop (endedAt : Z) (c : Capture)
  : Capture * option RecordingResult :=
  match done c with
  | Pending =>
      let r := stopResult endedAt c in (withDone c (Resolved r), Some r)
  | _ => (c, None)
  end.

(** The [error] listener; the boolean tells whether [done] was rejected by
    this call. *)
Definition onError (c : Capture) : Capture * bool :=
  match done c with
  | Pending => (withDone c (Rejected "MediaRecorder error"), true)
  | _ => (c, false)
  end.

(** [if (recorder.state === "recording") recorder.stop()], the body of both
    the timer callback and the controller's [stop]. *)
Definition stopIfRecording (c : Capture) : Capture :=
  if decide (state (recorder c) = recording)
  then withRecorder c (Host.stop (recorder c))
  else c.

(** The controller's [stop()]. *)
Definition stop (c : Capture) : Capture := stopIfRecording c.

(** The [window.setTimeout] callback, run by the platform once the delay has
    elapsed; the timer is one-shot. *)
Definition autoStop (now : Z) (c : Capture) : Capture :=
  match autoStopAt c with
  | Some due =>
      if (due <=? now)%Z then stopIfRecording (withAutoStopAt c None) else c
  | None => c
  end.

End Recorder.

(** ** IndexedDB through the [idb] wrapper *)

Module Idb.

Inductive DOMException :=
| VersionError
| NotFoundError
| ConstraintError.

(** A connection returned by [openDB]: its serial number and the database
    it is connected to. *)
Record IDBPDatabase := mkIDBPDatabase {
  connection : nat;
  name : string;
}.

Instance IDBPDatabase_eq_dec : EqDecision IDBPDatabase.
Proof. solve_decision. Defined.

Section Records.
(** The stored values and the property at the key path; every object store
    of the application is created with [keyPath: "id"]. *)
Context {V : Type} (keyOf : V → string).

Record Database := mkDatabase {
  version : N;
  objectStores : gmap string (gmap string V);
}.

(** The origin's databases and the number of connections opened so far. *)
Record Storage := mkStorage {
  databases : gmap string Database;
  opened : nat;
}.

Definition absent : Database := mkDatabase 0 ∅.

Definition database (nm : string) (p : Storage) : Database :=
  default absent (databases p !! nm).

(** [db.objectStoreNames.contains(s)] inside an upgrade. *)
Definition contains (os : gmap string (gmap string V)) (s : string) : bool :=
  bool_decide (is_Some (os !! s)).

(** [db.createObjectStore(s, { keyPath: "id" })] inside an upgrade. *)
Definition createObjectStore (s : string) (os : gmap string (gmap string V))
  : DOMException + gmap string (gmap string V) :=
  if contains os s then inl ConstraintError else inr (<[s := ∅]> os).

(** [openDB(name, version, { upgrade })]: the upgrade callback runs only when
    the stored version is older than the requested one; a failed upgrade
    aborts and leaves the storage as it was. *)
Definition openDB (nm : string) (ver : N)
    (upgrade : gmap string (gmap string V)
               → DOMException + gmap string (gmap string V))
    (p : Storage) : (DOMException + IDBPDatabase) * Storage :=
  let old := database nm p in
  let h := mkIDBPDatabase (opened p) nm in
  if (ver <? version old)%N then (inl VersionError, p)
  else if (version old <? ver)%N then
    match upgrade (objectStores old) with
    | inl e => (inl e, p)
    | inr os =>
        (inr h, mkStorage (<[nm := mkDatabase ver os]> (databases p))
                          (S (opened p)))
    end
  else (inr h, mkStorage (databases p) (S (opened p))).

(** [db.put(store, value)]: insert or replace at the value's key. *)
Definition put (h : IDBPDatabase) (s : string) (v : V) (p : Storage)
  : (DOMException + unit) * Storage :=
  let d := database (name h) p in
  match objectStores d !! s with
  | None => (inl NotFoundError, p)
  | Some recs =>
      (inr tt,
       mkStorage
         (<[name h :=
              mkDatabase (version d)
                         (<[s := <[keyOf v := v]> recs]> (objectStores d))]>
            (databases p))
         (opened p))
  end.

(** [db.get(store, key)]. *)
Definition get (h : IDBPDatabase) (s : string) (k : string) (p : Storage)
  : (DOMException + option V) * Storage :=
  match objectStores (database (name h) p) !! s with
  | None => (inl NotFoundError, p)
  | Some recs => (inr (recs !! k), p)
  end.

(** [db.getAll(store)]: every record of the store, once.  The platform
    lists them by ascending key; here they come in the map's own order. *)
Definition getAll (h : IDBPDatabase) (s : string) (p : Storage)
  : (DOMException + list V) * Storage :=
  match objectStores (database (name h) p) !! s with
  | None => (inl NotFoundError, p)
  | Some recs => (inr ((map_to_list recs).*2), p)
  end.

End Records.

Arguments Database V : clear implicits.
Arguments Storage V : clear implicits.

End Idb.

(** ** db.ts, current version: one cached connection *)

Module Db.
Import Host Idb.

Inductive TestType := pushup | plank | squat | vjump | sprint.

Record Attempt := mkAttempt {
  id : string;
  testType : TestType;
  createdAt : string;
  verified : bool;
  scoreText : string;
  video : option Blob;
  mimeType : option string;
  durationMs : option Z;
}.

(** The module state: [dbInstance] and the storage behind it. *)
Record State := mkState {
  dbInstance : option IDBPDatabase;
  storage : Storage Attempt;
}.

(** An asynchronous function of the module: it may reject, and it leaves a
    state behind either way. *)
Definition Async (A : Type) : Type := State → (DOMException + A) * State.

Definition ret {A} (a : A) : Async A := λ st, (inr a, st).

Definition bind {A B} (m : Async A) (k : A → Async B) : Async B :=
  λ st, match m st with
        | (inr a, st') => k a st'
        | (inl e, st') => (inl e, st')
        end.

(** A call on the connection, lifted to the module state. *)
Definition onStorage {A}
    (f : Storage Attempt → (DOMException + A) * Storage Attempt) : Async A :=
  λ st, let '(r, p) := f (storage st) in (r, mkState (dbInstance st) p).

Definition upgrade (os : gmap string (gmap string Attempt))
  : DOMException + gmap string (gmap string Attempt) :=
  if negb (contains os "attempts") then createObjectStore "attempts" os
  else inr os.

(** [getDb], called with no other call of the module under way: the call
    is resumed with its connection before anything else runs.  How calls
    that overlap proceed is modelled further down. *)
Definition getDb : Async IDBPDatabase :=
  λ st, match dbInstance st with
        | Some h => (inr h, st)
        | None =>
            match openDB "win_db" 1 upgrade (storage st) with
            | (inr h, p) => (inr h, mkState (Some h) p)
            | (inl e, p) => (inl e, mkState None p)
            end
        end.

Definition saveAttempt (attempt : Attempt) : Async unit :=
  bind getDb (λ db, onStorage (put id db "attempts" attempt)).

Definition listAttempts : Async (list Attempt) :=
  bind getDb (λ db, onStorage (getAll db "attempts")).

Definition getAttempt (i : string) : Async (option Attempt) :=
  bind getDb (λ db, onStorage (get db "attempts" i)).

(** The page loads with nothing cached. *)
Definition load (p : Storage Attempt) : State := mkState None p.

(** Calls made one after the other, each awaited before the next. *)
Inductive Call :=
| CallGetDb
| CallSaveAttempt (attempt : Attempt)
| CallListAttempts
| CallGetAttempt (i : string).

Definition call (c : Call) (st : State) : State :=
  match c with
  | CallGetDb => snd (getDb st)
  | CallSaveAttempt a => snd (saveAttempt a st)
  | CallListAttempts => snd (listAttempts st)
  | CallGetAttempt i => snd (getAttempt i st)
  end.

Definition calls (cs : list Call) (st : State) : State :=
  foldl (λ s c, call c s) st cs.

(** *** Calls of [getDb] that overlap

    [getDb] has one [await].  A call tests [dbInstance] and, finding it
    empty, asks the platform to open the database and waits; other callbacks
    run in the meantime, further calls of [getDb] among them.  Resumed with
    the connection, the call assigns it to [dbInstance] and returns it. *)








(** The database is either not there yet, or was provisioned by this
    application: version 1 with the [attempts] store. *)
Definition provisionable (p : Storage Attempt) : bool :=
  let d := database "win_db" p in
  bool_decide (version d = 0%N)
  || (bool_decide (version d = 1%N) && contains (objectStores d) "attempts").

(** The records of the [attempts] store. *)
Definition attempts (p : Storage Attempt) : gmap string Attempt :=
  default ∅ (objectStores (database "win_db" p) !! "attempts").

(** The [attempts] store itself, if the database has one. *)
Definition store (p : Storage Attempt) : option (gmap string Attempt) :=
  objectStores (database "win_db" p) !! "attempts".

(** The state is one the module can work from: a cached connection is a
    connection to a database that has the store, and without a cached
    connection the database can be provisioned. *)
Definition connected (st : State) : Prop :=
  match dbInstance st with
  | Some h => name h = "win_db" ∧ is_Some (store (storage st))
  | None => provisionable (storage st) = true
  end.

(** The records after saving [l] one by one into [recs]. *)
Definition saved (recs : gmap string Attempt) (l : list Attempt)
  : gmap string Attempt :=
  foldl (λ m a, <[id a := a]> m) recs l.

Instance TestType_eq_dec : EqDecision TestType.
Proof. solve_decision. Defined.

End Db.

(** ** db.ts, earlier version: a connection per call

    Its [Attempt] differs from the current one only in that [scoreText] may
    be missing; the current record type is used for both. *)

Module DbLegacy.
Import Host Idb.

Definition DB_NAME : string := "win_db".
Definition DB_VERSION : N := 1.

Definition Async (A : Type) : Type :=
  Storage Db.Attempt → (DOMException + A) * Storage Db.Attempt.

Definition bind {A B} (m : Async A) (k : A → Async B) : Async B :=
  λ p, match m p with
       | (inr a, p') => k a p'
       | (inl e, p') => (inl e, p')
       end.

Definition upgrade (os : gmap string (gmap string Db.Attempt))
  : DOMException + gmap string (gmap string Db.Attempt) :=
  createObjectStore "attempts" os.

Definition getDb : Async IDBPDatabase := openDB DB_NAME DB_VERSION upgrade.

Definition saveAttempt (attempt : Db.Attempt) : Async unit :=
  bind getDb (λ db, put Db.id db "attempts" attempt).

Definition listAttempts : Async (list Db.Attempt) :=
  bind getDb (λ db, getAll db "attempts").

End DbLegacy.

(** ** main.ts: the recording screen *)

Module Main.
Import Host Recorder.

(** What the [preview] video element plays. *)
Inductive PreviewSource :=
| NoSource
| LiveStream (s : nat)
| ObjectUrl (b : Blob).

(** The module variables of [main.ts], the part of the page they drive, and
    the platform around them.  An object URL is identified with the blob it
    names; [captures] holds every controller [recordVideo] has returned,
    [currentRecording] pointing into it; [acquired] counts the streams
    [getUserMedia] has handed out (a stream is its serial number),
    [cameraRequests] the [startCamera] calls still awaited, and [released]
    logs each [stopCamera] call with the stream it was given;
    [savesInFlight] counts the [saveAttempt] calls whose continuation has
    not run yet.  Titles and the rendering of the attempt list are left
    out. *)
Record World := mkWorld {
  currentStream : option nat;
  currentRecording : option nat;
  isCancelling : bool;
  currentTestType : option Db.TestType;
  recordedVideo : option RecordingResult;
  lastPreviewUrl : option Blob;
  testSelectShown : bool;
  recordUIShown : bool;
  saveSectionShown : bool;
  startCameraDisabled : bool;
  startRecordDisabled : bool;
  stopRecordDisabled : bool;
  scoreInput : string;
  previewSource : PreviewSource;
  previewControls : bool;
  captures : list Capture;
  now : Z;
  acquired : nat;
  cameraRequests : nat;
  released : list nat;
  db : Db.State;
  savesInFlight : nat;
  alerts : list string;
}.

Definition set_currentStream (v : option nat) (w : World) : World :=
  mkWorld v (currentRecording w) (isCancelling w) (currentTestType w)
          (recordedVideo w) (lastPreviewUrl w) (testSelectShown w)
          (recordUIShown w) (saveSectionShown w) (startCameraDisabled w)
          (startRecordDisabled w) (stopRecordDisabled w) (scoreInput w)
          (previewSource w) (previewControls w) (captures w) (now w)
          (acquired w) (cameraRequests w) (released w) (db w)
          (savesInFlight w) (alerts w).

Definition set_currentRecording (v : option nat) (w : World) : World :=
  mkWorld (currentStream w) v (isCancelling w) (currentTestType w)
          (recordedVideo w) (lastPreviewUrl w) (testSelectShown w)
          (recordUIShown w) (saveSectionShown w) (startCameraDisabled w)
          (startRecordDisabled w) (stopRecordDisabled w) (scoreInput w)
          (previewSource w) (previewControls w) (captures w) (now w)
          (acquired w) (cameraRequests w) (released w) (db w)
          (savesInFlight w) (alerts w).

Definition set_isCancelling (v : bool) (w : World) : World :=
  mkWorld (currentStream w) (currentRecording w) v (currentTestType w)
          (recordedVideo w) (lastPreviewUrl w) (testSelectShown w)
          (recordUIShown w) (saveSectionShown w) (startCameraDisabled w)
          (startRecordDisabled w) (stopRecordDisabled w) (scoreInput w)
          (previewSource w) (previewControls w) (captures w) (now w)
          (acquired w) (cameraRequests w) (released w) (db w)
          (savesInFlight w) (alerts w).

Definition set_currentTestType (v : option Db.TestType) (w : World) : World :=
  mkWorld (currentStream w) (currentRecording w) (isCancelling w) v
          (recordedVideo w) (lastPreviewUrl w) (testSelectShown w)
          (recordUIShown w) (saveSectionShown w) (startCameraDisabled w)
          (startRecordDisabled w) (stopRecordDisabled w) (scoreInput w)
          (previewSource w) (previewControls w) (captures w) (now w)
          (acquired w) (cameraRequests w) (released w) (db w)
          (savesInFlight w) (alerts w).

Definition set_recordedVideo (v : option RecordingResult) (w : World) : World :=
  mkWorld (currentStream w) (currentRecording w) (isCancelling w)
          (currentTestType w) v (lastPreviewUrl w) (testSelectShown w)
          (recordUIShown w) (saveSectionShown w) (startCameraDisabled w)
          (startRecordDisabled w) (stopRecordDisabled w) (scoreInput w)
          (previewSource w) (previewControls w) (captures w) (now w)
          (acquired w) (cameraRequests w) (released w) (db w)
          (savesInFlight w) (alerts w).

Definition set_lastPreviewUrl (v : option Blob) (w : World) : World :=
  mkWorld (currentStream w) (currentRecording w) (isCancelling w)
          (currentTestType w) (recordedVideo w) v (testSelectShown w)
          (recordUIShown w) (saveSectionShown w) (startCameraDisabled w)
          (startRecordDisabled w) (stopRecordDisabled w) (scoreInput w)
          (previewSource w) (previewControls w) (captures w) (now w)
          (acquired w) (cameraRequests w) (released w) (db w)
          (savesInFlight w) (alerts w).

Definition set_testSelectShown (v : bool) (w : World) : World :=
  mkWorld (currentStream w) (currentRecording w) (isCancelling w)
          (currentTestType w) (recordedVideo w) (lastPreviewUrl w) v
          (recordUIShown w) (saveSectionShown w) (startCameraDisabled w)
          (startRecordDisabled w) (stopRecordDisabled w) (scoreInput w)
          (previewSource w) (previewControls w) (captures w) (now w)
          (acquired w) (cameraRequests w) (released w) (db w)
          (savesInFlight w) (alerts w).

Definition set_recordUIShown (v : bool) (w : World) : World :=
  mkWorld (currentStream w) (currentRecording w) (isCancelling w)
          (currentTestType w) (recordedVideo w) (lastPreviewUrl w)
          (testSelectShown w) v (saveSectionShown w) (startCameraDisabled
          w) (startRecordDisabled w) (stopRecordDisabled w) (scoreInput w)
          (previewSource w) (previewControls w) (captures w) (now w)
          (acquired w) (cameraRequests w) (released w) (db w)
          (savesInFlight w) (alerts w).

Definition set_saveSectionShown (v : bool) (w : World) : World :=
  mkWorld (currentStream w) (currentRecording w) (isCancelling w)
          (currentTestType w) (recordedVideo w) (lastPreviewUrl w)
          (testSelectShown w) (recordUIShown w) v (startCameraDisabled w)
          (startRecordDisabled w) (stopRecordDisabled w) (scoreInput w)
          (previewSource w) (previewControls w) (captures w) (now w)
          (acquired w) (cameraRequests w) (released w) (db w)
          (savesInFlight w) (alerts w).

Definition set_startCameraDisabled (v : bool) (w : World) : World :=
  mkWorld (currentStream w) (currentRecording w) (isCancelling w)
          (currentTestType w) (recordedVideo w) (lastPreviewUrl w)
          (testSelectShown w) (recordUIShown w) (saveSectionShown w) v
          (startRecordDisabled w) (stopRecordDisabled w) (scoreInput w)
          (previewSource w) (previewControls w) (captures w) (now w)
          (acquired w) (cameraRequests w) (released w) (db w)
          (savesInFlight w) (alerts w).

Definition set_startRecordDisabled (v : bool) (w : World) : World :=
  mkWorld (currentStream w) (currentRecording w) (isCancelling w)
          (currentTestType w) (recordedVideo w) (lastPreviewUrl w)
          (testSelectShown w) (recordUIShown w) (saveSectionShown w)
          (startCameraDisabled w) v (stopRecordDisabled w) (scoreInput w)
          (previewSource w) (previewControls w) (captures w) (now w)
          (acquired w) (cameraRequests w) (released w) (db w)
          (savesInFlight w) (alerts w).

Definition set_stopRecordDisabled (v : bool) (w : World) : World :=
  mkWorld (currentStream w) (currentRecording w) (isCancelling w)
          (currentTestType w) (recordedVideo w) (lastPreviewUrl w)
          (testSelectShown w) (recordUIShown w) (saveSectionShown w)
          (startCameraDisabled w) (startRecordDisabled w) v (scoreInput w)
          (previewSource w) (previewControls w) (captures w) (now w)
          (acquired w) (cameraRequests w) (released w) (db w)
          (savesInFlight w) (alerts w).

Definition set_scoreInput (v : string) (w : World) : World :=
  mkWorld (currentStream w) (currentRecording w) (isCancelling w)
          (currentTestType w) (recordedVideo w) (lastPreviewUrl w)
          (testSelectShown w) (recordUIShown w) (saveSectionShown w)
          (startCameraDisabled w) (startRecordDisabled w)
          (stopRecordDisabled w) v (previewSource w) (previewControls w)
          (captures w) (now w) (acquired w) (cameraRequests w) (released
          w) (db w) (savesInFlight w) (alerts w).

Definition set_previewSource (v : PreviewSource) (w : World) : World :=
  mkWorld (currentStream w) (currentRecording w) (isCancelling w)
          (currentTestType w) (recordedVideo w) (lastPreviewUrl w)
          (testSelectShown w) (recordUIShown w) (saveSectionShown w)
          (startCameraDisabled w) (startRecordDisabled w)
          (stopRecordDisabled w) (scoreInput w) v (previewControls w)
          (captures w) (now w) (acquired w) (cameraRequests w) (released
          w) (db w) (savesInFlight w) (alerts w).

Definition set_previewControls (v : bool) (w : World) : World :=
  mkWorld (currentStream w) (currentRecording w) (isCancelling w)
          (currentTestType w) (recordedVideo w) (lastPreviewUrl w)
          (testSelectShown w) (recordUIShown w) (saveSectionShown w)
          (startCameraDisabled w) (startRecordDisabled w)
          (stopRecordDisabled w) (scoreInput w) (previewSource w) v
          (captures w) (now w) (acquired w) (cameraRequests w) (released
          w) (db w) (savesInFlight w) (alerts w).

Definition set_captures (v : list Capture) (w : World) : World :=
  mkWorld (currentStream w) (currentRecording w) (isCancelling w)
          (currentTestType w) (recordedVideo w) (lastPreviewUrl w)
          (testSelectShown w) (recordUIShown w) (saveSectionShown w)
          (startCameraDisabled w) (startRecordDisabled w)
          (stopRecordDisabled w) (scoreInput w) (previewSource w)
          (previewControls w) v (now w) (acquired w) (cameraRequests w)
          (released w) (db w) (savesInFlight w) (alerts w).

Definition set_now (v : Z) (w : World) : World :=
  mkWorld (currentStream w) (currentRecording w) (isCancelling w)
          (currentTestType w) (recordedVideo w) (lastPreviewUrl w)
          (testSelectShown w) (recordUIShown w) (saveSectionShown w)
          (startCameraDisabled w) (startRecordDisabled w)
          (stopRecordDisabled w) (scoreInput w) (previewSource w)
          (previewControls w) (captures w) v (acquired w) (cameraRequests
          w) (released w) (db w) (savesInFlight w) (alerts w).

Definition set_acquired (v : nat) (w : World) : World :=
  mkWorld (currentStream w) (currentRecording w) (isCancelling w)
          (currentTestType w) (recordedVideo w) (lastPreviewUrl w)
          (testSelectShown w) (recordUIShown w) (saveSectionShown w)
          (startCameraDisabled w) (startRecordDisabled w)
          (stopRecordDisabled w) (scoreInput w) (previewSource w)
          (previewControls w) (captures w) (now w) v (cameraRequests w)
          (released w) (db w) (savesInFlight w) (alerts w).

Definition set_cameraRequests (v : nat) (w : World) : World :=
  mkWorld (currentStream w) (currentRecording w) (isCancelling w)
          (currentTestType w) (recordedVideo w) (lastPreviewUrl w)
          (testSelectShown w) (recordUIShown w) (saveSectionShown w)
          (startCameraDisabled w) (startRecordDisabled w)
          (stopRecordDisabled w) (scoreInput w) (previewSource w)
          (previewControls w) (captures w) (now w) (acquired w) v
          (released w) (db w) (savesInFlight w) (alerts w).

Definition set_released (v : list nat) (w : World) : World :=
  mkWorld (currentStream w) (currentRecording w) (isCancelling w)
          (currentTestType w) (recordedVideo w) (lastPreviewUrl w)
          (testSelectShown w) (recordUIShown w) (saveSectionShown w)
          (startCameraDisabled w) (startRecordDisabled w)
          (stopRecordDisabled w) (scoreInput w) (previewSource w)
          (previewControls w) (captures w) (now w) (acquired w)
          (cameraRequests w) v (db w) (savesInFlight w) (alerts w).

Definition set_db (v : Db.State) (w : World) : World :=
  mkWorld (currentStream w) (currentRecording w) (isCancelling w)
          (currentTestType w) (recordedVideo w) (lastPreviewUrl w)
          (testSelectShown w) (recordUIShown w) (saveSectionShown w)
          (startCameraDisabled w) (startRecordDisabled w)
          (stopRecordDisabled w) (scoreInput w) (previewSource w)
          (previewControls w) (captures w) (now w) (acquired w)
          (cameraRequests w) (released w) v (savesInFlight w) (alerts w).

Definition set_savesInFlight (v : nat) (w : World) : World :=
  mkWorld (currentStream w) (currentRecording w) (isCancelling w)
          (currentTestType w) (recordedVideo w) (lastPreviewUrl w)
          (testSelectShown w) (recordUIShown w) (saveSectionShown w)
          (startCameraDisabled w) (startRecordDisabled w)
          (stopRecordDisabled w) (scoreInput w) (previewSource w)
          (previewControls w) (captures w) (now w) (acquired w)
          (cameraRequests w) (released w) (db w) v (alerts w).

Definition set_alerts (v : list string) (w : World) : World :=
  mkWorld (currentStream w) (currentRecording w) (isCancelling w)
          (currentTestType w) (recordedVideo w) (lastPreviewUrl w)
          (testSelectShown w) (recordUIShown w) (saveSectionShown w)
          (startCameraDisabled w) (startRecordDisabled w)
          (stopRecordDisabled w) (scoreInput w) (previewSource w)
          (previewControls w) (captures w) (now w) (acquired w)
          (cameraRequests w) (released w) (db w) (savesInFlight w) v.

(** [alert(message)]. *)
Definition alert (m : string) (w : World) : World :=
  set_alerts (alerts w ++ [m]) w.

(** [stopCamera(stream)]: every track of the stream is stopped. *)
Definition stopCamera (s : nat) (w : World) : World :=
  set_released (released w ++ [s]) w.

(** How often [stopCamera] has been called on stream [s]. *)
Definition releases (s : nat) (w : World) : nat :=
  length (filter (λ x, x = s) (released w)).

(** The white space and the line terminators that [String.prototype.trim]
    strips, as the bytes of their UTF-8 encodings: U+0009 to U+000D and
    U+0020; U+00A0; U+1680, U+2000 to U+200A, U+2028, U+2029, U+202F, U+205F,
    U+3000 and U+FEFF. *)
Definition isSpace1 (a : nat) : bool :=
  (a =? 32)%nat || ((9 <=? a)%nat && (a <=? 13)%nat).

Definition isSpace2 (a b : nat) : bool := (a =? 194)%nat && (b =? 160)%nat.

Definition isSpace3 (a b c : nat) : bool :=
  ((a =? 225)%nat && (b =? 154)%nat && (c =? 128)%nat)
  || ((a =? 226)%nat && (b =? 128)%nat
      && (((128 <=? c)%nat && (c <=? 138)%nat)
          || (c =? 168)%nat || (c =? 169)%nat || (c =? 175)%nat))
  || ((a =? 226)%nat && (b =? 129)%nat && (c =? 159)%nat)
  || ((a =? 227)%nat && (b =? 128)%nat && (c =? 128)%nat)
  || ((a =? 239)%nat && (b =? 187)%nat && (c =? 191)%nat).

(** Stripping the white space at the head of a list of bytes; with
    [backwards] the list is a string read from its end, and so are the
    encodings. *)
Fixpoint strip (backwards : bool) (l : list nat) : list nat :=
  match l with
  | a :: l1 =>
      if isSpace1 a then strip backwards l1
      else
        match l1 with
        | b :: l2 =>
            if (if backwards then isSpace2 b a else isSpace2 a b)
            then strip backwards l2
            else
              match l2 with
              | c :: l3 =>
                  if (if backwards then isSpace3 c b a else isSpace3 a b c)
                  then strip backwards l3
                  else l
              | [] => l
              end
        | [] => l
        end
  | [] => []
  end.

(** [String.prototype.trim]. *)
Definition trim (s : string) : string :=
  String.string_of_list_ascii
    (map ascii_of_nat
       (rev (strip true (rev (strip false
          (map nat_of_ascii (String.list_ascii_of_string s))))))).

Definition setPreviewFromBlob (b : Blob) (w : World) : World :=
  let w := set_lastPreviewUrl (Some b) w in
  let w := set_previewSource (ObjectUrl b) w in
  set_previewControls true w.

Definition openTestRecorder (t : Db.TestType) (w : World) : World :=
  let w := set_currentTestType (Some t) w in
  let w := set_testSelectShown false w in
  let w := set_recordUIShown true w in
  let w := set_saveSectionShown false w in
  let w := set_recordedVideo None w in
  let w := set_startCameraDisabled false w in
  let w := set_startRecordDisabled true w in
  set_stopRecordDisabled true w.

Definition resetRecorder (w : World) : World :=
  let w := match lastPreviewUrl w with
           | Some _ => set_lastPreviewUrl None w
           | None => w
           end in
  let w := match currentStream w with
           | Some s => set_currentStream None (stopCamera s w)
           | None => w
           end in
  let w := set_previewSource NoSource w in
  let w := set_previewControls false w in
  let w := set_recordUIShown false w in
  let w := set_testSelectShown true w in
  let w := set_startCameraDisabled false w in
  let w := set_startRecordDisabled true w in
  let w := set_stopRecordDisabled true w in
  let w := set_saveSectionShown false w in
  let w := set_scoreInput "" w in
  let w := set_currentTestType None w in
  let w := set_recordedVideo None w in
  let w := set_currentRecording None w in
  set_isCancelling false w.

(** The click handler of [startCameraBtn] up to its [await]. *)
Definition clickStartCamera (w : World) : World :=
  let w := match currentStream w with
           | Some s => stopCamera s w
           | None => w
           end in
  set_cameraRequests (S (cameraRequests w)) w.

(** The same handler resumed with the stream [startCamera] resolved to;
    [startCamera] has made it the source of the preview, whose [play()] is
    taken to succeed. *)
Definition cameraGranted (w : World) : World :=
  match cameraRequests w with
  | O => w
  | S n =>
      let s := acquired w in
      let w := set_cameraRequests n w in
      let w := set_acquired (S s) w in
      let w := set_previewSource (LiveStream s) w in
      let w := set_currentStream (Some s) w in
      let w := set_startCameraDisabled true w in
      set_startRecordDisabled false w
  end.

(** The same handler resumed in its [catch]. *)
Definition cameraDenied (w : World) : World :=
  match cameraRequests w with
  | O => w
  | S n =>
      let w := set_cameraRequests n w in
      alert "Camera access denied or unavailable." w
  end.

(** The reaction registered with [currentRecording.done.then]. *)
Definition doneFulfilled (result : RecordingResult) (w : World) : World :=
  if isCancelling w then w
  else
    let w := set_recordedVideo (Some result) w in
    let w := match currentStream w with
             | Some s => stopCamera s w
             | None => w
             end in
    let w := set_currentStream None w in
    let w := setPreviewFromBlob (blob result) w in
    let w := set_saveSectionShown true w in
    set_stopRecordDisabled true w.

(** The reaction registered with [.catch]. *)
Definition doneRejected (w : World) : World :=
  let w := alert "Recording failed." w in
  let w := set_stopRecordDisabled true w in
  let w := set_startRecordDisabled false w in
  set_startCameraDisabled false w.

(** The click handler of [startRecordBtn]. *)
Definition clickStartRecord (E : Env) (w : World) : World :=
  match currentStream w with
  | None => w
  | Some s =>
      let w := set_isCancelling false w in
      let c := recordVideo E (now w) s (Some 90000) in
      let w := set_currentRecording (Some (length (captures w))) w in
      let w := set_captures (captures w ++ [c]) w in
      let w := set_startRecordDisabled true w in
      set_stopRecordDisabled false w
  end.

(** The click handler of [stopRecordBtn]. *)
Definition clickStop (w : World) : World :=
  match currentRecording w with
  | None => w
  | Some r => set_captures (alter Recorder.stop r (captures w)) w
  end.

(** The guarded block at the head of the click handler of [backBtn]. *)
Definition cancelIfRecording (w : World) : World :=
  match currentRecording w with
  | Some r =>
      match captures w !! r with
      | Some c =>
          if decide (state (recorder c) = recording) then
            let w := set_isCancelling true w in
            set_captures (alter Recorder.stop r (captures w)) w
          else w
      | None => w
      end
  | None => w
  end.

(** The click handler of [backBtn]. *)
Definition clickBack (w : World) : World :=
  let w := cancelIfRecording w in
  resetRecorder w.

(** The click handler of [saveAttemptBtn] up to the end of [saveAttempt];
    [uuid] and [timestamp] are what [crypto.randomUUID()] and
    [new Date().toISOString()] return. *)
Definition clickSave (uuid timestamp : string) (w : World) : World :=
  match recordedVideo w, currentTestType w with
  | Some rv, Some t =>
      let score := trim (scoreInput w) in
      if decide (score = "") then alert "Please enter a score." w
      else
        let attempt :=
          {| Db.id := uuid;
             Db.testType := t;
             Db.createdAt := timestamp;
             Db.verified := false;
             Db.scoreText := score;
             Db.video := Some (blob rv);
             Db.mimeType := Some (mimeType rv);
             Db.durationMs := Some (durationMs rv) |} in
        match Db.saveAttempt attempt (db w) with
        | (inr _, st) => set_savesInFlight (S (savesInFlight w)) (set_db st w)
        | (inl _, st) => set_db st w
        end
  | _, _ => w
  end.

Definition loadAttempts (w : World) : World :=
  set_db (snd (Db.listAttempts (db w))) w.

(** The same handler resumed after [await saveAttempt(attempt)]. *)
Definition saveSettled (w : World) : World :=
  match savesInFlight w with
  | O => w
  | S n =>
      let w := set_savesInFlight n w in
      let w := alert "Attempt saved!" w in
      let w := resetRecorder w in
      loadAttempts w
  end.

(** The platform delivers the [stop] event of capture [r]: the listener of
    [recordVideo] runs, and then the reaction to [done] if it was fulfilled. *)
Definition stopEvent (r : nat) (w : World) : World :=
  match captures w !! r with
  | Some c =>
      if stopQueued (recorder c) then
        let c := withRecorder c (stopDelivered (recorder c)) in
        let '(c, fulfilled) := onStop (now w) c in
        let w := set_captures (<[r := c]> (captures w)) w in
        match fulfilled with
        | Some result => doneFulfilled result w
        | None => w
        end
      else w
  | None => w
  end.

(** The platform reports an error on capture [r] while it records. *)
Definition errorEvent (r : nat) (w : World) : World :=
  match captures w !! r with
  | Some c =>
      if decide (state (recorder c) = recording) then
        let c := withRecorder c (fail (recorder c)) in
        let '(c, rejected) := onError c in
        let w := set_captures (<[r := c]> (captures w)) w in
        if rejected then doneRejected w else w
      else w
  | None => w
  end.

(** Everything that can happen to the page; [Elapse dt] lets the clock
    advance by [dt] microseconds, and [TimerFires r] is the platform running
    the timer callback of capture [r], which it does once the delay is
    over. *)
Inductive Event :=
| SelectTest (t : Db.TestType)
| ClickStartCamera
| CameraGranted
| CameraDenied
| ClickStartRecord
| ClickStop
| ClickBack
| TypeScore (s : string)
| ClickSave (uuid timestamp : string)
| SaveSettled
| Elapse (dt : N)
| TimerFires (r : nat)
| DataAvailable (r : nat) (data : option Blob)
| StopEvent (r : nat)
| ErrorEvent (r : nat).

Definition step (E : Env) (w : World) (e : Event) : World :=
  match e with
  | SelectTest t => openTestRecorder t w
  | ClickStartCamera => clickStartCamera w
  | CameraGranted => cameraGranted w
  | CameraDenied => cameraDenied w
  | ClickStartRecord => clickStartRecord E w
  | ClickStop => clickStop w
  | ClickBack => clickBack w
  | TypeScore s => set_scoreInput s w
  | ClickSave uuid timestamp => clickSave uuid timestamp w
  | SaveSettled => saveSettled w
  | Elapse dt => set_now (now w + Z.of_N dt) w
  | TimerFires r => set_captures (alter (autoStop (now w)) r (captures w)) w
  | DataAvailable r data =>
      set_captures (alter (onDataAvailable data) r (captures w)) w
  | StopEvent r => stopEvent r w
  | ErrorEvent r => errorEvent r w
  end.

Definition run (E : Env) (es : list Event) (w : World) : World :=
  foldl (step E) w es.

(** The page once loaded: the test list is shown, nothing is acquired, and
    the start-up [loadAttempts()] has run against the storage [p].  The
    events of a run are those that come once that first listing has
    settled. *)
Definition init (p : Idb.Storage Db.Attempt) : World :=
  loadAttempts
    {| currentStream := None; currentRecording := None;
       isCancelling := false; currentTestType := None;
       recordedVideo := None; lastPreviewUrl := None;
       testSelectShown := true; recordUIShown := false;
       saveSectionShown := false; startCameraDisabled := false;
       startRecordDisabled := true; stopRecordDisabled := true;
       scoreInput := ""; previewSource := NoSource;
       previewControls := false; captures := []; now := 0;
       acquired := 0; cameraRequests := 0; released := [];
       db := Db.load p; savesInFlight := 0; alerts := [] |}.

(** A control the user can reach: shown and not disabled.  The markup is
    not part of the sources; each control is taken to sit in the section
    its handler shows and hides, the test buttons in the test list. *)
Definition reachable (w : World) (e : Event) : bool :=
  match e with
  | SelectTest _ => testSelectShown w
  | ClickStartCamera => recordUIShown w && negb (startCameraDisabled w)
  | ClickStartRecord => recordUIShown w && negb (startRecordDisabled w)
  | ClickStop => recordUIShown w && negb (stopRecordDisabled w)
  | ClickBack => recordUIShown w
  | TypeScore _ => recordUIShown w && saveSectionShown w
  | ClickSave _ _ => recordUIShown w && saveSectionShown w
  | _ => true
  end.

End Main.

(** ** Concrete platforms and runs, and the predicates of the properties *)

Module Scenario.
Import Host Recorder Main.

(** A browser that accepts only plain WebM and reports what it was asked
    for, or Matroska when asked for nothing. *)
Definition webmOnly : Env :=
  mkEnv (λ s, bool_decide (s = "video/webm"))
        (λ requested, default "video/x-matroska" requested).

(** A browser that accepts VP9 but whose recorders report no [mimeType]. *)
Definition silent : Env :=
  mkEnv (λ s, bool_decide (s = "video/webm;codecs=vp9")) (λ _, "").

(** A browser that accepts only MP4 and whose recorders report the codec
    profile they use, written with capital letters. *)
Definition profiled : Env :=
  mkEnv (λ s, bool_decide (s = "video/mp4"))
        (λ _, "video/mp4;codecs=avc1.42E01E").

(** A browser that accepts none of the candidates. *)
Definition none : Env :=
  mkEnv (λ _, false) (λ requested, default "video/x-matroska" requested).

Definition emptyStorage : Idb.Storage Db.Attempt := Idb.mkStorage ∅ 0.

Definition chunk : Blob := mkBlob [Byte.x01; Byte.x02; Byte.x03] "video/webm".

Definition emptyChunk : Blob := mkBlob [] "video/webm".

(** Choose a test, open the camera, start recording. *)
Definition begin (t : Db.TestType) : list Event :=
  [SelectTest t; ClickStartCamera; CameraGranted; ClickStartRecord].

(** Back is pressed while recording; the recorder hands over its data and
    confirms the stop afterwards. *)
Definition cancelled : list Event :=
  begin Db.plank ++ [ClickBack; DataAvailable 0 (Some chunk); StopEvent 0].

(** Back is pressed while recording and another test is opened before the
    hardware confirms; then a score is typed and Save is pressed. *)
Definition cancelledThenSaved : list Event :=
  begin Db.plank
  ++ [ClickBack; SelectTest Db.squat; DataAvailable 0 (Some chunk);
      StopEvent 0; TypeScore "5 reps"; ClickSave "a1" "2024-01-01T00:00:00.000Z"].

(** The recorder fails while recording; its [stop] event follows. *)
Definition failed : list Event :=
  begin Db.plank ++ [ErrorEvent 0; StopEvent 0].

(** Every event of a run finds its control reachable when it happens. *)
Fixpoint feasible (E : Env) (es : list Event) (w : World) : bool :=
  match es with
  | [] => true
  | e :: es' => reachable w e && feasible E es' (step E w e)
  end.

(** The events of one recording session once it has started: time passing,
    the auto-stop timer, Stop, Back, data and the hardware's confirmation. *)
Definition sessionEvent (e : Event) : bool :=
  match e with
  | Elapse _ | TimerFires _ | ClickStop | ClickBack
  | DataAvailable _ _ | StopEvent _ => true
  | _ => false
  end.

(** The session events that come before the hardware's confirmation. *)
Definition beforeConfirmation (e : Event) : bool :=
  match e with
  | Elapse _ | TimerFires _ | ClickStop | ClickBack | DataAvailable _ _ => true
  | _ => false
  end.

(** The time an event takes. *)
Definition elapse (e : Event) : Z :=
  match e with
  | Elapse dt => Z.of_N dt
  | _ => 0
  end.

(** The event asks the recorder of the session to stop, when it happens at
    clock reading [t] and the timer is due from [due]: Stop, Back, or the
    timer firing when it is due. *)
Definition asksToStop (due t : Z) (e : Event) : bool :=
  match e with
  | ClickStop | ClickBack => true
  | TimerFires O => due <=? t
  | _ => false
  end.

(** Some event of the run asks the recorder to stop; the run starts at
    clock reading [t]. *)
Fixpoint requested (due t : Z) (es : list Event) : bool :=
  match es with
  | [] => false
  | e :: es' => asksToStop due t e || requested due (t + elapse e) es'
  end.

(** What the data events of the session's capture carry, in order. *)
Definition dataOf (es : list Event) : list (option Blob) :=
  omap (λ e, match e with
             | DataAvailable O d => Some d
             | _ => None
             end) es.

(** Feeding a capture the data events of a run, in order. *)
Definition feed (ds : list (option Blob)) (c : Capture) : Capture :=
  foldl (λ c d, onDataAvailable d c) c ds.

(** The chunks among [ds] that are present and not empty, in order. *)
Definition kept (ds : list (option Blob)) : list Blob :=
  filter (λ b, (0 < blob_size b)%nat) (omap id ds).

(** A result whose payload declares the type the result names, as the
    [Blob] constructor normalises it. *)
Definition agrees (r : RecordingResult) : Prop :=
  blob_type (blob r) = normalizeType (mimeType r).

(** Every fulfilled capture and the recorded video agree on the type. *)
Definition typed (w : World) : Prop :=
  Forall (λ c, ∀ r, done c = Resolved r → agrees r) (captures w)
  ∧ ∀ r, recordedVideo w = Some r → agrees r.

(** Where one recording session stands, read off the single capture of the
    page, the stream it records and the module variables: recording;
    stopping after Stop or the timer; stopping after Back; stop confirmed. *)
Definition isRecording (c : Capture) (w : World) : Prop :=
  state (recorder c) = recording ∧ stopCalls (recorder c) = 0%nat
  ∧ stopQueued (recorder c) = false ∧ done c = Pending
  ∧ is_Some (autoStopAt c)
  ∧ currentRecording w = Some 0%nat ∧ currentStream w = Some 0%nat
  ∧ released w = [].

Definition isStopping (c : Capture) (w : World) : Prop :=
  state (recorder c) = inactive ∧ stopCalls (recorder c) = 1%nat
  ∧ stopQueued (recorder c) = true ∧ done c = Pending
  ∧ currentRecording w = Some 0%nat ∧ currentStream w = Some 0%nat
  ∧ released w = [].

Definition isStoppingCancelled (c : Capture) (w : World) : Prop :=
  state (recorder c) = inactive ∧ stopCalls (recorder c) = 1%nat
  ∧ stopQueued (recorder c) = true ∧ done c = Pending
  ∧ currentRecording w = None ∧ currentStream w = None
  ∧ released w = [0%nat].

Definition isConfirmed (c : Capture) (w : World) : Prop :=
  state (recorder c) = inactive ∧ stopCalls (recorder c) = 1%nat
  ∧ stopQueued (recorder c) = false ∧ (∃ r, done c = Resolved r)
  ∧ currentStream w = None ∧ released w = [0%nat].

Definition inSession (w : World) : Prop :=
  ∃ c, captures w = [c] ∧ isCancelling w = false
       ∧ stream (recorder c) = 0%nat
       ∧ (isRecording c w ∨ isStopping c w
          ∨ isStoppingCancelled c w ∨ isConfirmed c w).

(** The recorder of the session has been told to stop. *)
Definition stopped (w : World) : Prop :=
  ∃ c, captures w = [c] ∧ state (recorder c) = inactive.

(** The no-break space U+00A0 and the ideographic space U+3000, in UTF-8. *)
Definition noBreakSpace : string :=
  String (ascii_of_nat 194) (String (ascii_of_nat 160) "").

Definition ideographicSpace : string :=
  String (ascii_of_nat 227)
    (String (ascii_of_nat 128) (String (ascii_of_nat 128) "")).

Definition sampleAttempt (i : string) : Db.Attempt :=
  {| Db.id := i; Db.testType := Db.plank;
     Db.createdAt := "2024-01-01T00:00:00.000Z"; Db.verified := false;
     Db.scoreText := "62s"; Db.video := Some chunk;
     Db.mimeType := Some "video/webm"; Db.durationMs := Some 62000 |}.

End Scenario.

(** ** Shapes of captures, results and stored attempts *)

Module Shape.
Import Host Recorder Main.

(** A capture whose recorder records, was never told to stop and owes no
    stop event, with [done] pending; or whose recorder is inactive because
    it was told to stop, once, and has not failed; or whose recorder is
    inactive because it failed, and was never told to stop. *)
Definition disciplined (c : Capture) : Prop :=
  (state (recorder c) = recording ∧ stopCalls (recorder c) = 0%nat
   ∧ stopQueued (recorder c) = false ∧ done c = Pending)
  ∨ (state (recorder c) = inactive ∧ stopCalls (recorder c) = 1%nat
     ∧ ∀ m, done c ≠ Rejected m)
  ∨ (state (recorder c) = inactive ∧ stopCalls (recorder c) = 0%nat
     ∧ done c = Rejected "MediaRecorder error").

(** A result that names a type, whose payload declares that type as the
    [Blob] constructor normalises it, and whose duration is not negative. *)
Definition sound (r : RecordingResult) : Prop :=
  mimeType r ≠ ""
  ∧ blob_type (blob r) = normalizeType (mimeType r)
  ∧ 0 ≤ durationMs r.

(** An attempt as the recording screen builds them: self-scored, with a
    score, and with a clip whose type and duration are recorded. *)
Definition wellFormed (a : Db.Attempt) : Prop :=
  Db.verified a = false
  ∧ Db.scoreText a ≠ ""
  ∧ ∃ b m d, Db.video a = Some b ∧ Db.mimeType a = Some m
             ∧ Db.durationMs a = Some d
             ∧ m ≠ "" ∧ blob_type b = normalizeType m ∧ 0 ≤ d.

(** The attempt the handler of Save builds from the page. *)
Definition attemptOf (uuid timestamp : string) (t : Db.TestType)
    (score : string) (rv : RecordingResult) : Db.Attempt :=
  {| Db.id := uuid; Db.testType := t; Db.createdAt := timestamp;
     Db.verified := false; Db.scoreText := score;
     Db.video := Some (blob rv); Db.mimeType := Some (mimeType rv);
     Db.durationMs := Some (durationMs rv) |}.

(** The store holds each attempt under its own id, and only attempts of
    that shape. *)
Definition shelved (recs : gmap string Db.Attempt) : Prop :=
  map_Forall (λ k a, Db.id a = k ∧ wellFormed a) recs.

(** The page works on the connection [h], the [n]-th and last that was
    opened, every stored attempt satisfies [P], and a clip waiting to be
    saved is sound. *)
Definition orderly (P : string → Db.Attempt → Prop)
    (h : Idb.IDBPDatabase) (n : nat) (w : World) : Prop :=
  Db.connected (db w)
  ∧ Db.dbInstance (db w) = Some h
  ∧ Idb.opened (Db.storage (db w)) = n
  ∧ map_Forall P (Db.attempts (Db.storage (db w)))
  ∧ ∀ r, recordedVideo w = Some r → sound r.

(** The assumption under which the earlier [db.ts] can open the database:
    it is not there, or it is at version 1 with the store. *)
Definition legacyReady (p : Idb.Storage Db.Attempt) : Prop :=
  (Idb.version (Idb.database "win_db" p) = 0%N ∧ Db.store p = None)
  ∨ (Idb.version (Idb.database "win_db" p) = 1%N ∧ is_Some (Db.store p)).

(** A database left by a later release of the application. *)
Definition tooNew : Idb.Storage Db.Attempt :=
  Idb.mkStorage {[ "win_db" := Idb.mkDatabase 2 ∅ ]} 0.

(** A database at version 1 that lacks the store. *)
Definition storeless : Idb.Storage Db.Attempt :=
  Idb.mkStorage {[ "win_db" := Idb.mkDatabase 1 ∅ ]} 0.

End Shape.

(** * Properties of the recorder *)

Module RecorderSpec.
Import Host Recorder.

Lemma firstSupported_Some E ts t :
  firstSupported E ts = Some t ↔
  ∃ pre post, ts = pre ++ t :: post ∧ isTypeSupported E t = true
              ∧ Forall (λ u, isTypeSupported E u = false) pre.
Proof.
  induction ts as [|u ts IH]; simpl.
  - split; [done|]. intros (pre & post & Heq & _). by destruct pre.
  - destruct (isTypeSupported E u) eqn:Hu.
    + split.
      * intros [= <-]. by exists [], ts.
      * intros (pre & post & Heq & Ht & Hpre).
        destruct pre as [|v pre]; simplify_eq/=; [done|].
        apply Forall_cons in Hpre as [Hv _]. congruence.
    + rewrite IH. split.
      * intros (pre & post & -> & Ht & Hpre).
        exists (u :: pre), post. by repeat split; [|constructor].
      * intros (pre & post & Heq & Ht & Hpre).
        destruct pre as [|v pre]; simplify_eq/=; [congruence|].
        apply Forall_cons in Hpre as [_ Hpre]. by exists pre, post.
Qed.

Lemma firstSupported_None E ts :
  firstSupported E ts = None ↔ Forall (λ u, isTypeSupported E u = false) ts.
Proof.
  induction ts as [|u ts IH]; simpl.
  - by split; [constructor|].
  - destruct (isTypeSupported E u) eqn:Hu.
    + split; [done|]. intros [? _]%Forall_cons. congruence.
    + rewrite IH. split; [by constructor|]. by intros [_ ?]%Forall_cons.
Qed.

Lemma pickBestMimeType_nonempty E t : pickBestMimeType E = Some t → t ≠ "".
Proof.
  unfold pickBestMimeType, candidates. simpl.
  repeat case_match; intros; simplify_eq; done.
Qed.

Lemma recordVideo_chosen E now s d :
  chosen (recordVideo E now s d) = pickBestMimeType E.
Proof. done. Qed.

Lemma recordVideo_recorder E now s d :
  recorder (recordVideo E now s d)
  = start (newMediaRecorder E s (pickBestMimeType E)).
Proof. unfold recordVideo. simpl. by destruct (pickBestMimeType E). Qed.

(** C6, as stated, fails: with a recorder that reports no [mimeType], the
    result carries the type that was requested. *)
Lemma result_mimeType_may_be_the_requested_one :
  let c := recordVideo Scenario.silent 0 0 None in
  recorderMimeType (recorder c) = ""
  ∧ chosen c = Some "video/webm;codecs=vp9"
  ∧ mimeType (stopResult 5 c) = "video/webm;codecs=vp9"
  ∧ mimeType (stopResult 5 c) ≠ recorderMimeType (recorder c).
Proof. by vm_compute. Qed.

(** C6, amended: the first supported candidate of vp9 WebM, vp8 WebM, plain
    WebM, MP4 is requested, and nothing is requested (the platform picks)
    when none is supported; the result's [mimeType] is the type the recorder
    reports when it reports one, otherwise the requested candidate, and
    ["video/webm"] when nothing was requested either. *)
Theorem codec_selection_and_reported_type E now s d endedAt :
  let c := recordVideo E now s d in
  candidates = [ "video/webm;codecs=vp9"; "video/webm;codecs=vp8";
                 "video/webm"; "video/mp4" ]
  ∧ (∀ t, chosen c = Some t ↔
          ∃ pre post, candidates = pre ++ t :: post
                      ∧ isTypeSupported E t = true
                      ∧ Forall (λ u, isTypeSupported E u = false) pre)
  ∧ (chosen c = None ↔ Forall (λ u, isTypeSupported E u = false) candidates)
  ∧ recorderMimeType (recorder c) = reportedMimeType E (chosen c)
  ∧ mimeType (stopResult endedAt c)
    = if decide (recorderMimeType (recorder c) = "")
      then default "video/webm" (chosen c)
      else recorderMimeType (recorder c).
Proof.
  intros c. split_and!.
  - done.
  - intros t. apply firstSupported_Some.
  - apply firstSupported_None.
  - subst c. by rewrite recordVideo_recorder.
  - unfold stopResult. cbn [mimeType]. unfold actualMimeType, or_str.
    case_decide; [|done].
    subst c. rewrite recordVideo_chosen.
    destruct (pickBestMimeType E) as [t|] eqn:Hp; cbn [or_undef default]; [|done].
    unfold or_str. case_decide; [|done].
    by apply pickBestMimeType_nonempty in Hp.
Qed.

End RecorderSpec.

(** * Properties of a recording session *)

Module SessionSpec.
Import Host Recorder Main Scenario.

(** *** Bookkeeping *)



Lemma alter_at {A} (f : A → A) (l : list A) i x :
  l !! i = Some x → alter f i l = <[i := f x]> l.
Proof.
  revert i. induction l as [|y l IH]; intros [|i] Hl; simplify_eq/=;
    [done|]. f_equal. by apply IH.
Qed.

Lemma run_app E es1 es2 w : run E (es1 ++ es2) w = run E es2 (run E es1 w).
Proof. apply foldl_app. Qed.

Lemma withChunks_same c : withChunks c (chunks c) = c.
Proof. by destruct c. Qed.

(** Carrying out the assignments of a handler, field by field. *)
Ltac assignments :=
  cbn [
        alert stopCamera setPreviewFromBlob set_currentStream
        set_currentRecording set_isCancelling set_currentTestType
        set_recordedVideo set_lastPreviewUrl set_testSelectShown
        set_recordUIShown set_saveSectionShown set_startCameraDisabled
        set_startRecordDisabled set_stopRecordDisabled set_scoreInput
        set_previewSource set_previewControls set_captures set_now
        set_acquired set_cameraRequests set_released set_db
        set_savesInFlight set_alerts currentStream currentRecording
        isCancelling currentTestType recordedVideo lastPreviewUrl
        testSelectShown recordUIShown saveSectionShown
        startCameraDisabled startRecordDisabled stopRecordDisabled
        scoreInput previewSource previewControls captures now acquired
        cameraRequests released db savesInFlight alerts ] in *.

(** *** The timer and the stop guard *)

Lemma stopIfRecording_inactive c :
  state (recorder c) ≠ recording → stopIfRecording c = c.
Proof. unfold stopIfRecording. by case_decide. Qed.




Lemma autoStop_fired c t : autoStopAt c = None → autoStop t c = c.
Proof. intros Hd. unfold autoStop. by rewrite Hd. Qed.







(** *** Data chunks *)

Lemma feed_chunks ds c : feed ds c = withChunks c (chunks c ++ kept ds).
Proof.
  unfold feed, kept. revert c.
  induction ds as [|[b|] ds IH]; intros c; simpl.
  - by rewrite app_nil_r, withChunks_same.
  - rewrite IH. destruct (Nat.ltb_spec 0 (blob_size b)).
    + rewrite filter_cons_True by done. simpl. by rewrite <- app_assoc.
    + rewrite filter_cons_False by lia. done.
  - apply IH.
Qed.

Lemma kept_nothing ds :
  Forall (λ d, ∀ b, d = Some b → blob_size b = 0%nat) ds → kept ds = [].
Proof.
  unfold kept. induction 1 as [|[b|] ds Hd _ IH]; [done| |done].
  cbn [omap list_omap id]. rewrite filter_cons_False; [done|].
  rewrite (Hd b eq_refl). lia.
Qed.

Lemma stopResult_stopped t c r :
  recorderMimeType r = recorderMimeType (recorder c) →
  stopResult t (withRecorder c r) = stopResult t c.
Proof. intros H. unfold stopResult, actualMimeType. simpl. by rewrite H. Qed.

Lemma stopResult_stop t c : stopResult t (Recorder.stop c) = stopResult t c.
Proof.
  unfold Recorder.stop, stopIfRecording. case_decide; [|done].
  apply stopResult_stopped. unfold Host.stop. by destruct (state _).
Qed.

(** *** What each handler does, case by case *)


Lemma stop_recording c :
  state (recorder c) = recording →
  Recorder.stop c
  = withRecorder c (mkMediaRecorder (stream (recorder c)) inactive
                      (recorderMimeType (recorder c)) true
                      (S (stopCalls (recorder c)))).
Proof.
  intros H. unfold Recorder.stop, stopIfRecording.
  rewrite decide_True by done. unfold Host.stop. by rewrite H.
Qed.

Lemma stopEvent_fulfils w r c :
  captures w !! r = Some c →
  stopQueued (recorder c) = true →
  done c = Pending →
  stopEvent r w
  = doneFulfilled (stopResult (now w) c)
      (set_captures
         (<[r := withDone (withRecorder c (stopDelivered (recorder c)))
                          (Resolved (stopResult (now w) c))]> (captures w)) w).
Proof.
  intros Hc Hq Hd. unfold stopEvent. rewrite Hc, Hq.
  unfold onStop. cbn [done withRecorder]. rewrite Hd.
  by rewrite stopResult_stopped.
Qed.

Lemma stopEvent_settled w r c :
  captures w !! r = Some c →
  stopQueued (recorder c) = true →
  done c ≠ Pending →
  stopEvent r w
  = set_captures (<[r := withRecorder c (stopDelivered (recorder c))]>
                    (captures w)) w.
Proof.
  intros Hc Hq Hd. unfold stopEvent. rewrite Hc, Hq.
  unfold onStop. cbn [done withRecorder]. by destruct (done c).
Qed.

Lemma stopEvent_idle w r :
  (∀ c, captures w !! r = Some c → stopQueued (recorder c) = false) →
  stopEvent r w = w.
Proof.
  intros H. unfold stopEvent. destruct (captures w !! r) as [c|]; [|done].
  by rewrite (H c).
Qed.

Lemma doneFulfilled_live result w :
  isCancelling w = false →
  recordedVideo (doneFulfilled result w) = Some result
  ∧ captures (doneFulfilled result w) = captures w
  ∧ currentStream (doneFulfilled result w) = None
  ∧ released (doneFulfilled result w)
    = released w ++ match currentStream w with Some s => [s] | None => [] end
  ∧ saveSectionShown (doneFulfilled result w) = true
  ∧ isCancelling (doneFulfilled result w) = false
  ∧ currentRecording (doneFulfilled result w) = currentRecording w
  ∧ previewSource (doneFulfilled result w) = ObjectUrl (blob result).
Proof.
  intros H. unfold doneFulfilled. rewrite H.
  assignments. destruct (currentStream w); assignments; by rewrite ?app_nil_r.
Qed.

(** *** The declared type of the payload *)

(** Going through a handler: carry out its assignments and split on what
    it tests. *)
Ltac through := repeat (assignments; try case_match; simplify_eq).

Lemma done_stop c : done (Recorder.stop c) = done c.
Proof. unfold Recorder.stop, stopIfRecording. by case_decide. Qed.

Lemma done_autoStop t c : done (autoStop t c) = done c.
Proof.
  unfold autoStop, stopIfRecording. repeat case_match; try done.
  all: by case_decide.
Qed.

Lemma done_onDataAvailable d c : done (onDataAvailable d c) = done c.
Proof. unfold onDataAvailable. by repeat case_match. Qed.

Lemma stopResult_agrees t c : agrees (stopResult t c).
Proof. done. Qed.

Lemma typed_alter (f : Capture → Capture) (i : nat) (cs : list Capture) :
  (∀ c, done (f c) = done c) →
  Forall (λ c, ∀ r, done c = Resolved r → agrees r) cs →
  Forall (λ c, ∀ r, done c = Resolved r → agrees r) (alter f i cs).
Proof.
  intros Hf Hall. apply Forall_alter; [done|].
  intros c _ Hc res. rewrite Hf. apply Hc.
Qed.

Lemma resetRecorder_fields w :
  captures (resetRecorder w) = captures w
  ∧ recordedVideo (resetRecorder w) = None
  ∧ isCancelling (resetRecorder w) = false
  ∧ currentStream (resetRecorder w) = None
  ∧ currentRecording (resetRecorder w) = None
  ∧ released (resetRecorder w)
    = released w ++ match currentStream w with Some s => [s] | None => [] end
  ∧ now (resetRecorder w) = now w
  ∧ saveSectionShown (resetRecorder w) = false.
Proof.
  unfold resetRecorder. through; by rewrite ?app_nil_r.
Qed.

Lemma loadAttempts_captures w : captures (loadAttempts w) = captures w.
Proof. by destruct w. Qed.

Lemma loadAttempts_recordedVideo w :
  recordedVideo (loadAttempts w) = recordedVideo w.
Proof. by destruct w. Qed.

Lemma step_typed E w e : typed w → typed (step E w e).
Proof.
  intros [Hc Hr]. unfold typed.
  destruct e; cbn [step].
  - unfold openTestRecorder. through. by split.
  - unfold clickStartCamera. through; by split.
  - unfold cameraGranted. through; by split.
  - unfold cameraDenied. through; by split.
  - unfold clickStartRecord. through; [|by split].
    split; [|done]. apply Forall_app. split; [done|].
    by apply Forall_singleton.
  - unfold clickStop. through; [|by split].
    split; [|done]. apply typed_alter; [apply done_stop|done].
  - unfold clickBack. cbv zeta.
    match goal with
    | |- context [resetRecorder ?x] =>
        destruct (resetRecorder_fields x) as (-> & -> & _)
    end.
    split; [|done]. unfold cancelIfRecording. through; try done.
    apply typed_alter; [apply done_stop|done].
  - through. by split.
  - unfold clickSave. through; (split; [done|]); intros; apply Hr; congruence.
  - unfold saveSettled. destruct (savesInFlight w); [by split|].
    cbv zeta. rewrite !loadAttempts_captures, !loadAttempts_recordedVideo.
    match goal with
    | |- context [resetRecorder ?x] =>
        destruct (resetRecorder_fields x) as (-> & -> & _)
    end.
    by split.
  - through. by split.
  - through. split; [|done]. apply typed_alter; [apply done_autoStop|done].
  - through. split; [|done].
    apply typed_alter; [apply done_onDataAvailable|done].
  - unfold stopEvent. destruct (captures w !! r) as [c|] eqn:Hcr; [|by split].
    destruct (stopQueued (recorder c)); [|by split].
    unfold onStop. cbn [done withRecorder].
    destruct (done c) eqn:Hd.
    + unfold doneFulfilled. through.
      all: split; [apply Forall_insert; [done|]; by intros ? [= <-]|].
      all: first [done | by intros ? [= <-]].
    + through. split; [|done]. apply Forall_insert; [done|].
      cbn. rewrite Hd. intros ? [= <-].
      rewrite Forall_lookup in Hc. by eapply Hc.
    + through. split; [|done]. apply Forall_insert; [done|].
      cbn. by rewrite Hd.
  - unfold errorEvent. destruct (captures w !! r) as [c|] eqn:Hcr; [|by split].
    case_decide; [|by split].
    unfold onError. cbn [done withRecorder].
    destruct (done c) eqn:Hd; unfold doneRejected; through.
    all: split; [|done]; apply Forall_insert; [done|]; cbn; rewrite ?Hd; try done.
    intros ? [= <-]. rewrite Forall_lookup in Hc. by eapply Hc.
Qed.

Lemma init_typed p : typed (init p).
Proof. split; [constructor|done]. Qed.

Lemma run_typed E es w : typed w → typed (run E es w).
Proof.
  revert w. induction es as [|e es IH]; intros w Hw; [done|].
  apply IH. by apply step_typed.
Qed.

Lemma normalizeType_candidate t :
  t ∈ "video/webm" :: candidates → normalizeType t = t.
Proof.
  unfold candidates. rewrite !elem_of_cons, elem_of_nil.
  intros [->|[->|[->|[->|[->|[]]]]]]; reflexivity.
Qed.

Lemma pickBestMimeType_candidate E t :
  pickBestMimeType E = Some t → t ∈ candidates.
Proof.
  unfold pickBestMimeType, candidates. cbn [firstSupported].
  repeat case_match; intros; simplify_eq;
    rewrite !elem_of_cons; naive_solver.
Qed.

(** C9, as stated, fails: the [Blob] constructor puts the type it is given
    in lower case.  A recorder reports a codec profile written with capital
    letters; the result names the type as it was reported, and its payload
    declares it in lower case. *)
Lemma payload_type_may_differ_from_result_type :
  let w := run profiled (begin Db.plank ++ [ClickStop; StopEvent 0])
               (init emptyStorage) in
  recordedVideo w
  = Some {| blob := mkBlob [] "video/mp4;codecs=avc1.42e01e";
            mimeType := "video/mp4;codecs=avc1.42E01E";
            durationMs := 0 |}
  ∧ (∀ r, recordedVideo w = Some r → blob_type (blob r) ≠ mimeType r).
Proof.
  split; [by vm_compute|]. intros r. vm_compute. by intros [= <-].
Qed.

(** C9, amended: the payload of a result declares the type the result
    names as the [Blob] constructor normalises it: in lower case, and empty
    if it has a character outside U+0020 to U+007E.  This holds of the value
    the [stop] listener builds, and so of every fulfilled [done] and of
    [recordedVideo] after every run of the page.  The two are the same
    string when the recorder reports no type of its own, since the result
    then names a candidate or ["video/webm"], and in the first version of
    the recorder, which names the requested type. *)
Theorem payload_type_is_normalised_result_type E p es t c chunks startedAt
    now s d :
  blob_type (blob (stopResult t c)) = normalizeType (mimeType (stopResult t c))
  ∧ (recorderMimeType (recorder (recordVideo E now s d)) = "" →
     blob_type (blob (stopResult t (recordVideo E now s d)))
     = mimeType (stopResult t (recordVideo E now s d)))
  ∧ (∀ r, normalizeType (mimeType r) = mimeType r → agrees r →
          blob_type (blob r) = mimeType r)
  ∧ blob_type (RecorderLegacy.blob (RecorderLegacy.onstop E chunks startedAt t))
    = RecorderLegacy.mimeType (RecorderLegacy.onstop E chunks startedAt t)
  ∧ Forall (λ c, match done c with
                 | Resolved r => blob_type (blob r) = normalizeType (mimeType r)
                 | _ => True
                 end) (captures (run E es (init p)))
  ∧ match recordedVideo (run E es (init p)) with
    | Some r => blob_type (blob r) = normalizeType (mimeType r)
    | None => True
    end.
Proof.
  destruct (run_typed E es (init p) (init_typed p)) as [Hc Hr].
  split_and!.
  - done.
  - intros Hsilent.
    cbn [stopResult blob mimeType newBlob blob_type].
    apply normalizeType_candidate.
    unfold actualMimeType. rewrite Hsilent. unfold or_str at 1.
    rewrite decide_True by done. rewrite RecorderSpec.recordVideo_chosen.
    destruct (pickBestMimeType E) as [x|] eqn:Hx; cbn [or_undef].
    + unfold or_str. case_decide; [apply list_elem_of_here|].
      apply list_elem_of_further. by eapply pickBestMimeType_candidate.
    + apply list_elem_of_here.
  - unfold agrees. congruence.
  - unfold RecorderLegacy.onstop, RecorderLegacy.pickMimeType.
    cbn [RecorderLegacy.blob RecorderLegacy.mimeType newBlob blob_type].
    by repeat case_match.
  - eapply Forall_impl; [exact Hc|]. intros c' H.
    destruct (done c') as [|r|] eqn:Hd; [done| |done]. by apply H.
  - destruct (recordedVideo _) as [r|]; [by apply Hr|done].
Qed.

(** *** One session: stop signals and camera release *)

Lemma begin_inSession E p t : inSession (run E (begin t) (init p)).
Proof.
  exists (recordVideo E 0 0 (Some 90000)).
  split; [done|]. split; [done|].
  rewrite RecorderSpec.recordVideo_recorder. split; [done|]. left.
  unfold isRecording. rewrite RecorderSpec.recordVideo_recorder.
  by split_and!.
Qed.

Ltac settle :=
  first [ by left; repeat split; eauto
        | by right; left; repeat split; eauto
        | by right; right; left; repeat split; eauto
        | by right; right; right; repeat split; eauto ].

Lemma session_step E w e :
  sessionEvent e = true → inSession w →
  inSession (step E w e)
  ∧ (e = ClickStop ∨ e = ClickBack → stopped (step E w e))
  ∧ (stopped w → stopped (step E w e))
  ∧ (e = ClickBack → released (step E w e) = [0%nat])
  ∧ (released w = [0%nat] → released (step E w e) = [0%nat]).
Proof.
  intros He (c & Hc & Hcan & Hs & Hph).
  destruct w; cbn in Hc, Hcan; subst.
  destruct c as [[s st mime q calls] ch cs sa dn au].
  unfold isRecording, isStopping, isStoppingCancelled, isConfirmed in Hph.
  cbn in Hs, Hph.
  destruct Hph as [Hph|[Hph|[Hph|Hph]]]; destruct_and!;
    repeat match goal with
           | H : is_Some _ |- _ => destruct H as [? ->]
           | H : ∃ _, _ |- _ => destruct H as [? ->]
           end; subst.
  all: destruct e as [ | | | | | | | | | |dt|[|r]|[|r] [b|]|[|r]| ];
    try discriminate He; clear He.
  all: unfold inSession, stopped, isRecording, isStopping,
         isStoppingCancelled, isConfirmed.
  all: try match goal with cr : option nat |- _ => destruct cr as [[|?]|] end.
  all: cbn [step];
       unfold clickStop, clickBack, cancelIfRecording, resetRecorder, stopEvent,
         doneFulfilled,
         onStop, Recorder.stop, autoStop, onDataAvailable, stopIfRecording.
  all: repeat first [progress cbn in * | case_match | progress simplify_eq].
  all: split_and!;
         [ eexists; split; [reflexivity|]; cbn; split_and!; [done..|]; settle
         | .. ].
  all: intros;
       repeat match goal with
              | H : ∃ _, _ |- _ => destruct H as (? & ? & ?)
              | H : _ ∨ _ |- _ => destruct H
              end;
       simplify_eq/=; try done.
  all: by eexists.
Qed.

Lemma session_run E es w :
  forallb sessionEvent es = true → inSession w →
  inSession (run E es w)
  ∧ (ClickStop ∈ es ∨ ClickBack ∈ es → stopped (run E es w))
  ∧ (stopped w → stopped (run E es w))
  ∧ (ClickBack ∈ es → released (run E es w) = [0%nat])
  ∧ (released w = [0%nat] → released (run E es w) = [0%nat]).
Proof.
  revert w. induction es as [|e es IH]; intros w Hes Hw.
  - split_and!; try done.
    + intros [H|H]; by apply elem_of_nil in H.
    + intros H. by apply elem_of_nil in H.
  - cbn [forallb] in Hes. apply andb_prop in Hes as [He Hes].
    destruct (session_step E w e He Hw) as (Hw' & Hreq & Hst & Hback & Hrel).
    destruct (IH (step E w e) Hes Hw') as (IH1 & IH2 & IH3 & IH4 & IH5).
    change (run E (e :: es) w) with (run E es (step E w e)).
    split_and!; [done| | | |].
    + rewrite !elem_of_cons. intros [[<-|H]|[<-|H]]; auto.
    + auto.
    + rewrite elem_of_cons. intros [<-|H]; auto.
    + auto.
Qed.

(** What a session event does to the capture of the session: the timer
    stays armed while the recorder records, the clock advances by the time
    the event takes, the buffer takes the data the event carries, [done]
    stays as it is until the hardware confirms, and the recorder keeps
    recording unless the event asks it to stop. *)
Lemma session_step_track E due w e c :
  sessionEvent e = true → inSession w → captures w = [c] →
  (state (recorder c) = recording → autoStopAt c = Some due) →
  ∃ c', captures (step E w e) = [c']
    ∧ (state (recorder c') = recording → autoStopAt c' = Some due)
    ∧ now (step E w e) = now w + elapse e
    ∧ chunks c' = chunks (feed (dataOf [e]) c)
    ∧ (beforeConfirmation e = true → done c' = done c)
    ∧ (state (recorder c') = recording
       ↔ state (recorder c) = recording ∧ asksToStop due (now w) e = false).
Proof.
  intros He (c0 & Hc & Hcan & Hs & Hph) Hc' Harmed.
  rewrite Hc in Hc'. simplify_eq.
  destruct w; cbn in Hc, Hcan; subst.
  destruct c as [[s st mime q calls] ch cs sa dn au].
  unfold isRecording, isStopping, isStoppingCancelled, isConfirmed in Hph.
  cbn in Hs, Hph, Harmed.
  destruct Hph as [Hph|[Hph|[Hph|Hph]]]; destruct_and!;
    repeat match goal with
           | H : is_Some _ |- _ => destruct H as [? ->]
           | H : ∃ _, _ |- _ => destruct H as [? ->]
           end; subst.
  all: try (specialize (Harmed eq_refl); simplify_eq).
  all: try clear Harmed.
  all: destruct e as [ | | | | | | | | | |dt|[|r]|[|r] [b|]|[|r]| ];
    try discriminate He; clear He.
  all: try match goal with cr : option nat |- _ => destruct cr as [[|?]|] end.
  all: cbn [step];
       unfold clickStop, clickBack, cancelIfRecording, resetRecorder, stopEvent,
         doneFulfilled,
         onStop, Recorder.stop, autoStop, onDataAvailable, stopIfRecording.
  all: repeat first [progress cbn in * | case_match | progress simplify_eq].
  all: eexists; split; [reflexivity|]; cbn.
  all: split_and!; try done; try (by rewrite ?Z.add_0_r).
  all: try (split; [intros ?|intros [? ?]]; done).
Qed.

Lemma kept_app ds1 ds2 : kept (ds1 ++ ds2) = kept ds1 ++ kept ds2.
Proof. unfold kept. by rewrite omap_app, filter_app. Qed.

Lemma dataOf_cons e es : dataOf (e :: es) = dataOf [e] ++ dataOf es.
Proof. unfold dataOf. cbn [omap list_omap]. by case_match. Qed.

Lemma session_run_track E due es w c :
  forallb sessionEvent es = true → inSession w → captures w = [c] →
  (state (recorder c) = recording → autoStopAt c = Some due) →
  ∃ c', captures (run E es w) = [c']
    ∧ chunks c' = chunks c ++ kept (dataOf es)
    ∧ (forallb beforeConfirmation es = true → done c' = done c)
    ∧ (state (recorder c') = recording
       ↔ state (recorder c) = recording ∧ requested due (now w) es = false).
Proof.
  revert w c. induction es as [|e es IH]; intros w c Hes Hw Hc Harmed.
  - exists c. split; [done|]. split; [by rewrite app_nil_r|].
    split; [done|]. cbn. intuition.
  - cbn [forallb] in Hes. apply andb_prop in Hes as [He Hes].
    destruct (session_step E w e He Hw) as (Hw' & _).
    destruct (session_step_track E due w e c He Hw Hc Harmed)
      as (c1 & Hc1 & Harmed1 & Hnow & Hch & Hdone & Hrec).
    destruct (IH (step E w e) c1 Hes Hw' Hc1 Harmed1)
      as (c2 & Hc2 & Hch2 & Hdone2 & Hrec2).
    change (run E (e :: es) w) with (run E es (step E w e)).
    exists c2. split; [done|]. split_and!.
    + rewrite (dataOf_cons e es), kept_app, Hch2, Hch, feed_chunks.
      cbn [chunks withChunks]. symmetry. apply app_assoc.
    + cbn [forallb]. intros [H1 H2]%andb_prop.
      by rewrite Hdone2, Hdone.
    + rewrite Hrec2, Hrec, Hnow. cbn [requested].
      rewrite orb_false_iff. tauto.
Qed.

Lemma begin_armed E p t :
  let w := run E (begin t) (init p) in
  ∃ c, captures w = [c] ∧ now w = 0 ∧ chunks c = [] ∧ done c = Pending
       ∧ state (recorder c) = recording
       ∧ autoStopAt c = Some (ticksPerMs * 90000).
Proof.
  exists (recordVideo E 0 0 (Some 90000)).
  split; [done|]. split; [done|]. split; [done|]. split; [done|].
  by rewrite RecorderSpec.recordVideo_recorder.
Qed.



(** *** Data chunks, whenever they arrive *)

(** C10: a data event without data or with empty data leaves the buffer as
    it is, whether it comes before or after the recorder was asked to stop;
    so the payload is the non-empty chunks of the session in the order they
    came; the capture is fulfilled all the same, with a payload of length 0
    when no chunk was kept. *)
Theorem empty_chunks_are_dropped E p t (es : list Event) :
  forallb beforeConfirmation es = true →
  requested (ticksPerMs * 90000) 0 es = true →
  let w := run E (begin t ++ es ++ [StopEvent 0]) (init p) in
  (∀ c, onDataAvailable None c = c)
  ∧ (∀ c b, blob_size b = 0%nat → onDataAvailable (Some b) c = c)
  ∧ (∀ c b, blob_size b ≠ 0%nat →
       chunks (onDataAvailable (Some b) c) = chunks c ++ [b])
  ∧ ∃ result,
      (done <$> captures w !! 0%nat) = Some (Resolved result)
      ∧ recordedVideo w = Some result
      ∧ blob_bytes (blob result) = concat (blob_bytes <$> kept (dataOf es))
      ∧ (Forall (λ d, ∀ b, d = Some b → blob_size b = 0%nat) (dataOf es) →
         blob_size (blob result) = 0%nat).
Proof.
  intros Hes Hreq w. subst w.
  split; [done|]. split.
  { intros c b Hb. unfold onDataAvailable. by rewrite Hb. }
  split.
  { intros c b Hb. unfold onDataAvailable.
    by destruct (Nat.ltb_spec 0 (blob_size b)); [|lia]. }
  assert (forallb sessionEvent es = true) as Hes'.
  { apply forallb_forall. intros e He.
    eapply forallb_forall in Hes; [|exact He]. by destruct e. }
  rewrite app_assoc, (run_app _ (begin t ++ es)), run_app.
  destruct (session_run E es _ Hes' (begin_inSession E p t))
    as ((c & Hc & Hcan & _ & Hph) & _).
  destruct (begin_armed E p t)
    as (c0 & Hc0 & Hnow0 & Hch0 & Hdone0 & Hrec0 & Hdue0).
  destruct (session_run_track E (ticksPerMs * 90000) es _ c0 Hes'
              (begin_inSession E p t) Hc0 (λ _, Hdue0))
    as (c' & Hc' & Hch & Hdone & Hrec).
  rewrite Hnow0, Hreq in Hrec. rewrite Hch0 in Hch. rewrite Hdone0 in Hdone.
  specialize (Hdone Hes).
  set (w := run E es (run E (begin t) (init p))) in *. clearbody w.
  rewrite Hc in Hc'. injection Hc' as <-.
  assert (stopQueued (recorder c) = true) as Hq.
  { unfold isRecording, isStopping, isStoppingCancelled, isConfirmed in Hph.
    destruct Hph as [Hph|[Hph|[Hph|Hph]]]; destruct_and!; try done.
    - by destruct (proj1 Hrec).
    - repeat match goal with H : ∃ _, _ |- _ => destruct H end. congruence. }
  cbn [run foldl step].
  rewrite (stopEvent_fulfils w 0 c) by (by rewrite ?Hc).
  match goal with
  | |- context [doneFulfilled ?res ?x] =>
      destruct (doneFulfilled_live res x) as (-> & -> & _); [exact Hcan|]
  end.
  cbn [captures set_captures]. rewrite Hc. cbn [insert list_insert lookup list_lookup fmap option_fmap option_map done withDone].
  eexists. split; [reflexivity|]. split; [reflexivity|].
  cbn [stopResult blob newBlob blob_bytes]. rewrite Hch. cbn [app].
  split; [reflexivity|].
  intros Hall. unfold blob_size. cbn [blob_bytes].
  by rewrite (kept_nothing _ Hall).
Qed.

Lemma empty_chunks_are_dropped_witness :
  let w := run webmOnly
             (begin Db.plank
              ++ [DataAvailable 0 None; ClickStop;
                  DataAvailable 0 (Some emptyChunk)]
              ++ [StopEvent 0]) (init emptyStorage) in
  ∃ result,
    recordedVideo w = Some result ∧ blob_size (blob result) = 0%nat.
Proof.
  destruct (empty_chunks_are_dropped webmOnly emptyStorage Db.plank
              [DataAvailable 0 None; ClickStop;
               DataAvailable 0 (Some emptyChunk)] eq_refl eq_refl)
    as (_ & _ & _ & result & _ & Hv & _ & Hz).
  exists result. split; [exact Hv|]. apply Hz.
  repeat constructor; intros b [= <-]; reflexivity.
Defined.

(** *** Back while recording *)

Lemma cancelIfRecording_recording w r c :
  currentRecording w = Some r →
  captures w !! r = Some c →
  state (recorder c) = recording →
  cancelIfRecording w
  = set_captures (alter Recorder.stop r (captures w)) (set_isCancelling true w).
Proof.
  intros Hr Hc Hs. unfold cancelIfRecording. rewrite Hr, Hc.
  by rewrite decide_True.
Qed.

Lemma cancelIfRecording_fields w :
  released (cancelIfRecording w) = released w
  ∧ currentStream (cancelIfRecording w) = currentStream w
  ∧ now (cancelIfRecording w) = now w.
Proof. unfold cancelIfRecording. by through. Qed.

(** Whatever the page was doing, the handler of Back ends with the
    cancellation flag cleared. *)
Lemma clickBack_clears_flag w : isCancelling (clickBack w) = false.
Proof. unfold clickBack. apply resetRecorder_fields. Qed.

Lemma loadAttempts_isCancelling w :
  isCancelling (loadAttempts w) = isCancelling w.
Proof. by destruct w. Qed.

Lemma step_flag E w e :
  isCancelling w = false → isCancelling (step E w e) = false.
Proof.
  intros Hw. destruct e; cbn [step].
  - unfold openTestRecorder. by through.
  - unfold clickStartCamera. by through.
  - unfold cameraGranted. by through.
  - unfold cameraDenied. by through.
  - unfold clickStartRecord. by through.
  - unfold clickStop. by through.
  - apply clickBack_clears_flag.
  - by through.
  - unfold clickSave. by through.
  - unfold saveSettled. destruct (savesInFlight w); [done|].
    cbv zeta. rewrite loadAttempts_isCancelling. apply resetRecorder_fields.
  - by through.
  - by through.
  - by through.
  - unfold stopEvent, onStop, doneFulfilled. through; congruence.
  - unfold errorEvent, onError, doneRejected. by through.
Qed.

(** No reaction ever finds the flag set: it is raised and lowered within
    the one handler of Back. *)
Lemma flag_clear_between_events E es p : isCancelling (run E es (init p)) = false.
Proof.
  assert (∀ w, isCancelling w = false → isCancelling (run E es w) = false)
    as H; [|by apply H].
  induction es as [|e es IH]; intros w Hw; [done|].
  apply IH. by apply step_flag.
Qed.

(** Back is pressed on a capture that records, and the hardware confirms:
    the result is taken over and the save section is shown. *)
Lemma back_then_confirm E w r c :
  currentRecording w = Some r →
  captures w !! r = Some c →
  state (recorder c) = recording →
  done c = Pending →
  let w' := run E [ClickBack; StopEvent r] w in
  recordedVideo w' = Some (stopResult (now w) c)
  ∧ saveSectionShown w' = true
  ∧ previewSource w' = ObjectUrl (blob (stopResult (now w) c)).
Proof.
  intros Hcur Hc Hrec Hdone. cbn [run foldl step].
  destruct (resetRecorder_fields (cancelIfRecording w))
    as (Hcs & _ & Hflag & _ & _ & _ & Hnow & _).
  fold (clickBack w) in Hcs, Hflag, Hnow.
  rewrite (cancelIfRecording_recording _ _ _ Hcur Hc Hrec) in Hcs, Hnow.
  cbn [captures set_captures now set_isCancelling] in Hcs, Hnow.
  generalize dependent (clickBack w). intros w1 Hcs Hflag Hnow.
  erewrite stopEvent_fulfils; cycle 1.
  - by rewrite Hcs, list_lookup_alter_eq, Hc.
  - by rewrite stop_recording.
  - by rewrite done_stop.
  - match goal with
    | |- context [doneFulfilled ?res ?x] =>
        destruct (doneFulfilled_live res x)
          as (-> & _ & _ & _ & -> & _ & _ & ->); [exact Hflag|]
    end.
    cbn [now set_captures]. by rewrite Hnow, stopResult_stop.
Qed.

(** C1, on the code: Back is pressed while recording and the hardware
    confirms the stop afterwards; the reaction to [done] finds the flag
    already cleared by [resetRecorder], takes the clip over and shows the
    preview and the save section. *)
Theorem cancelled_capture_is_taken_over :
  let w := run webmOnly cancelled (init emptyStorage) in
  feasible webmOnly cancelled (init emptyStorage) = true
  ∧ isCancelling w = false
  ∧ recordedVideo w
    = Some {| blob := mkBlob [Byte.x01; Byte.x02; Byte.x03] "video/webm";
              mimeType := "video/webm"; durationMs := 0 |}
  ∧ saveSectionShown w = true
  ∧ previewSource w
    = ObjectUrl (mkBlob [Byte.x01; Byte.x02; Byte.x03] "video/webm").
Proof. by vm_compute. Qed.

(** C2, on the code: Back is pressed while recording and a test is opened
    before the hardware confirms; the clip of the cancelled session is taken
    over into the new screen, and Save passes it to [saveAttempt]. *)
Theorem cancelled_capture_is_saved :
  let w := run webmOnly cancelledThenSaved (init emptyStorage) in
  feasible webmOnly cancelledThenSaved (init emptyStorage) = true
  ∧ (state ∘ recorder <$> captures w) = [inactive]
  ∧ Db.attempts (Db.storage (db w)) !! "a1"
    = Some {| Db.id := "a1"; Db.testType := Db.squat;
              Db.createdAt := "2024-01-01T00:00:00.000Z";
              Db.verified := false; Db.scoreText := "5 reps";
              Db.video := Some chunk;
              Db.mimeType := Some "video/webm";
              Db.durationMs := Some 0 |}.
Proof. by vm_compute. Qed.

(** *** A failing recorder *)

Lemma errorEvent_rejects w r c :
  captures w !! r = Some c →
  state (recorder c) = recording →
  done c = Pending →
  errorEvent r w
  = doneRejected
      (set_captures
         (<[r := withDone (withRecorder c (fail (recorder c)))
                          (Rejected "MediaRecorder error")]> (captures w)) w).
Proof.
  intros Hc Hs Hd. unfold errorEvent. rewrite Hc, decide_True by done.
  unfold onError. cbn [done withRecorder]. by rewrite Hd.
Qed.

(** C4, as stated, fails: the recorder fails while recording; [done] is
    rejected, and the stream is still held and was never released. *)
Lemma capture_failure_keeps_the_camera :
  let w := run webmOnly failed (init emptyStorage) in
  (done <$> captures w !! 0%nat) = Some (Rejected "MediaRecorder error")
  ∧ releases 0 w = 0%nat
  ∧ currentStream w = Some 0%nat.
Proof. by vm_compute. Qed.

(** C4, amended: an error while recording rejects [done] with the error
    "MediaRecorder error"; the reaction reports it, disables Stop and
    re-enables Start Recording and Start Camera, and releases nothing: the
    stream stays the current one.  It is released when Back is pressed. *)
Theorem capture_failure_rejects_and_keeps_stream E w r c :
  captures w !! r = Some c →
  state (recorder c) = recording →
  done c = Pending →
  let w' := step E w (ErrorEvent r) in
  (done <$> captures w' !! r) = Some (Rejected "MediaRecorder error")
  ∧ (state ∘ recorder <$> captures w' !! r) = Some inactive
  ∧ released w' = released w
  ∧ currentStream w' = currentStream w
  ∧ alerts w' = alerts w ++ ["Recording failed."]
  ∧ stopRecordDisabled w' = true
  ∧ startRecordDisabled w' = false
  ∧ startCameraDisabled w' = false
  ∧ released (step E w' ClickBack)
    = released w ++ match currentStream w with Some s => [s] | None => [] end
  ∧ currentStream (step E w' ClickBack) = None.
Proof.
  intros Hc Hs Hd w'. subst w'. cbn [step].
  rewrite (errorEvent_rejects _ _ _ Hc Hs Hd).
  assert (r < length (captures w))%nat by by eapply lookup_lt_Some.
  unfold clickBack. cbv zeta.
  match goal with
  | |- context [resetRecorder ?x] =>
      destruct (resetRecorder_fields x) as (_ & _ & _ & -> & _ & -> & _)
  end.
  match goal with
  | |- context [cancelIfRecording ?x] =>
      destruct (cancelIfRecording_fields x) as (-> & -> & _)
  end.
  unfold doneRejected. assignments.
  rewrite list_lookup_insert_eq by done.
  by split_and!.
Qed.

Lemma capture_failure_rejects_and_keeps_stream_witness :
  let w := run webmOnly (begin Db.plank) (init emptyStorage) in
  let w' := step webmOnly w (ErrorEvent 0) in
  (done <$> captures w' !! 0%nat) = Some (Rejected "MediaRecorder error")
  ∧ released w' = []
  ∧ currentStream w' = Some 0%nat
  ∧ released (step webmOnly w' ClickBack) = [0%nat].
Proof.
  intros w w'.
  destruct (capture_failure_rejects_and_keeps_stream webmOnly w 0
              (recordVideo webmOnly 0 0 (Some 90000)))
    as (Hd & _ & Hr & Hs & _ & _ & _ & _ & Hb & _); try reflexivity.
  split_and!; [exact Hd|exact Hr|exact Hs|exact Hb].
Defined.

End SessionSpec.

(** * Properties of the attempt store *)

Module DbSpec.
Import Host Idb Db.

Lemma attempts_store p : attempts p = default ∅ (store p).
Proof. done. Qed.

Lemma provisionable_cases p :
  provisionable p = true →
  (version (database "win_db" p) = 0%N)
  ∨ (version (database "win_db" p) = 1%N ∧ is_Some (store p)).
Proof.
  unfold provisionable, contains, store.
  intros [H|[H1 H2]%andb_prop]%orb_prop.
  - left. by apply bool_decide_eq_true in H.
  - right. split; by apply bool_decide_eq_true in H1, H2.
Qed.

(** Opening the database the first time provisions the store if it is not
    there and leaves the records alone if it is. *)
Lemma openDB_provisions p :
  provisionable p = true →
  ∃ p', openDB "win_db" 1 upgrade p
        = (inr (mkIDBPDatabase (opened p) "win_db"), p')
        ∧ opened p' = S (opened p)
        ∧ store p' = Some (attempts p).
Proof.
  intros [H0|[H1 [recs Hs]]]%provisionable_cases; unfold openDB.
  - rewrite H0. cbn [N.ltb N.compare]. unfold upgrade, createObjectStore.
    destruct (contains _ "attempts") eqn:Hc; cbn [negb].
    + eexists. split; [reflexivity|]. split; [done|].
      unfold store, database. cbn [databases]. rewrite lookup_insert_eq.
      cbn. apply bool_decide_eq_true in Hc as [recs Hr].
      rewrite attempts_store. unfold store. by rewrite Hr.
    + eexists. split; [reflexivity|]. split; [done|].
      unfold store, database. cbn [databases]. rewrite lookup_insert_eq.
      cbn. rewrite lookup_insert_eq.
      apply bool_decide_eq_false in Hc.
      rewrite attempts_store. unfold store.
      destruct (objectStores _ !! "attempts") eqn:Hr; [|done].
      destruct Hc. by eexists.
  - rewrite H1. cbn [N.ltb N.compare].
    eexists. split; [reflexivity|]. split; [done|].
    rewrite attempts_store.
    unfold store, database in *. cbn [databases]. by rewrite Hs.
Qed.

Lemma put_store h a p recs :
  name h = "win_db" → store p = Some recs →
  ∃ p', put id h "attempts" a p = (inr tt, p')
        ∧ opened p' = opened p
        ∧ store p' = Some (<[id a := a]> recs).
Proof.
  intros Hn Hs. unfold put. rewrite Hn. unfold store in Hs. rewrite Hs.
  eexists. split; [reflexivity|]. split; [done|].
  unfold store, database. cbn [databases]. rewrite lookup_insert_eq.
  cbn. by rewrite lookup_insert_eq.
Qed.

Lemma get_store h i p recs :
  name h = "win_db" → store p = Some recs →
  get h "attempts" i p = (inr (recs !! i), p).
Proof. intros Hn Hs. unfold get. rewrite Hn. unfold store in Hs. by rewrite Hs. Qed.

Lemma getAll_store h p recs :
  name h = "win_db" → store p = Some recs →
  getAll h "attempts" p = (inr ((map_to_list recs).*2), p).
Proof.
  intros Hn Hs. unfold getAll. rewrite Hn. unfold store in Hs. by rewrite Hs.
Qed.

Lemma connected_attempts st h :
  dbInstance st = Some h → connected st →
  name h = "win_db" ∧ store (storage st) = Some (attempts (storage st)).
Proof.
  unfold connected. intros -> [Hn [recs Hs]]. split; [done|].
  by rewrite attempts_store, Hs.
Qed.

(** [getDb] succeeds from a connected state; it opens a connection only
    when none is cached, and afterwards one is. *)
Lemma getDb_connected st :
  connected st →
  ∃ h st', getDb st = (inr h, st')
    ∧ dbInstance st' = Some h
    ∧ connected st'
    ∧ name h = "win_db"
    ∧ store (storage st') = Some (attempts (storage st))
    ∧ match dbInstance st with
      | Some h' => h = h' ∧ st' = st
      | None => h = mkIDBPDatabase (opened (storage st)) "win_db"
                ∧ opened (storage st') = S (opened (storage st))
      end.
Proof.
  intros Hc. unfold getDb. destruct (dbInstance st) as [h|] eqn:Hi.
  - destruct (connected_attempts st h Hi Hc) as [Hn Hs].
    exists h, st. by split_and!.
  - unfold connected in Hc. rewrite Hi in Hc.
    destruct (openDB_provisions _ Hc) as (p' & -> & Ho & Hs).
    eexists _, _. split; [reflexivity|]. cbn.
    split_and!; done.
Qed.

Lemma saveAttempt_connected st a :
  connected st →
  ∃ st', saveAttempt a st = (inr tt, st')
    ∧ is_Some (dbInstance st')
    ∧ connected st'
    ∧ attempts (storage st') = <[id a := a]> (attempts (storage st))
    ∧ (∀ h, dbInstance st = Some h →
            dbInstance st' = Some h
            ∧ opened (storage st') = opened (storage st)).
Proof.
  intros Hc. unfold saveAttempt, bind, onStorage.
  destruct (getDb_connected st Hc)
    as (h & st1 & -> & Hi & Hc1 & Hn & Hs & Hsame).
  destruct (put_store h a _ _ Hn Hs) as (p' & -> & Ho & Hs').
  eexists. split; [reflexivity|]. simpl. rewrite Hi.
  split_and!.
  - by eexists.
  - unfold connected. simpl. split; [done|]. by eexists.
  - by rewrite attempts_store, Hs'.
  - intros h' Hh. rewrite Hh in Hsame. destruct Hsame as [-> ->].
    by split.
Qed.

Lemma getAttempt_connected st i :
  connected st →
  ∃ st', getAttempt i st = (inr (attempts (storage st) !! i), st')
    ∧ is_Some (dbInstance st')
    ∧ connected st'
    ∧ attempts (storage st') = attempts (storage st)
    ∧ (∀ h, dbInstance st = Some h → st' = st).
Proof.
  intros Hc. unfold getAttempt, bind, onStorage.
  destruct (getDb_connected st Hc)
    as (h & st1 & -> & Hi & Hc1 & Hn & Hs & Hsame).
  rewrite (get_store h i _ _ Hn Hs).
  eexists. split; [reflexivity|]. simpl. rewrite Hi.
  split_and!.
  - by eexists.
  - unfold connected. simpl. split; [done|]. by eexists.
  - by rewrite attempts_store, Hs.
  - intros h' Hh. rewrite Hh in Hsame. destruct Hsame as [-> ->].
    destruct st as [d s]. cbn in *. by rewrite Hh.
Qed.

Lemma listAttempts_connected st :
  connected st →
  ∃ st', listAttempts st
         = (inr ((map_to_list (attempts (storage st))).*2), st')
    ∧ is_Some (dbInstance st')
    ∧ connected st'
    ∧ attempts (storage st') = attempts (storage st)
    ∧ (∀ h, dbInstance st = Some h → st' = st).
Proof.
  intros Hc. unfold listAttempts, bind, onStorage.
  destruct (getDb_connected st Hc)
    as (h & st1 & -> & Hi & Hc1 & Hn & Hs & Hsame).
  rewrite (getAll_store h _ _ Hn Hs).
  eexists. split; [reflexivity|]. simpl. rewrite Hi.
  split_and!.
  - by eexists.
  - unfold connected. simpl. split; [done|]. by eexists.
  - by rewrite attempts_store, Hs.
  - intros h' Hh. rewrite Hh in Hsame. destruct Hsame as [-> ->].
    destruct st as [d s]. cbn in *. by rewrite Hh.
Qed.

(** *** Saving several attempts *)

Lemma saved_lookup_other recs (l : list Attempt) k :
  k ∉ id <$> l → saved recs l !! k = recs !! k.
Proof.
  unfold saved. revert recs. induction l as [|a l IH]; intros recs Hk; [done|].
  rewrite fmap_cons, not_elem_of_cons in Hk. destruct Hk as [Hne Hk].
  cbn [foldl]. rewrite IH by done. by rewrite lookup_insert_ne.
Qed.

Lemma saved_lookup recs (l : list Attempt) a :
  NoDup (id <$> l) → a ∈ l → saved recs l !! id a = Some a.
Proof.
  unfold saved. revert recs. induction l as [|b l IH]; intros recs Hnd Ha.
  - by apply elem_of_nil in Ha.
  - rewrite fmap_cons, NoDup_cons in Hnd. destruct Hnd as [Hb Hnd].
    cbn [foldl]. apply elem_of_cons in Ha as [->|Ha].
    + fold (saved (<[id b := b]> recs) l).
      rewrite saved_lookup_other by done. apply lookup_insert_eq.
    + by apply IH.
Qed.

Lemma saved_size recs (l : list Attempt) :
  NoDup (id <$> l) → (∀ a, a ∈ l → recs !! id a = None) →
  size (saved recs l) = (size recs + length l)%nat.
Proof.
  unfold saved. revert recs. induction l as [|b l IH]; intros recs Hnd Hfresh.
  - cbn. lia.
  - rewrite fmap_cons, NoDup_cons in Hnd. destruct Hnd as [Hb Hnd].
    cbn [foldl length]. rewrite IH; [|done|].
    + rewrite map_size_insert_None; [lia|].
      apply Hfresh, list_elem_of_here.
    + intros a Ha. rewrite lookup_insert_ne.
      * apply Hfresh. by apply list_elem_of_further.
      * intros Heq. apply Hb. rewrite Heq. by apply list_elem_of_fmap_2.
Qed.

Lemma calls_cons c cs st : calls (c :: cs) st = calls cs (call c st).
Proof. done. Qed.

Lemma calls_saved st (l : list Attempt) :
  connected st →
  connected (calls (CallSaveAttempt <$> l) st)
  ∧ attempts (storage (calls (CallSaveAttempt <$> l) st))
    = saved (attempts (storage st)) l.
Proof.
  revert st. induction l as [|a l IH]; intros st Hc; [done|].
  rewrite fmap_cons, calls_cons. cbn [call].
  destruct (saveAttempt_connected st a Hc) as (st' & -> & _ & Hc' & Ha & _).
  cbn [snd]. destruct (IH st' Hc') as [? ->]. split; [done|].
  by rewrite Ha.
Qed.

(** C7: an attempt that was saved is read back as it was, payload bytes and
    declared type included, and after saving attempts with distinct ids
    that were not in the store, the listing has that many records more; it
    has exactly that many on a store that was empty. *)
Theorem save_then_get_and_list st a (l : list Attempt) :
  connected st →
  NoDup (id <$> l) →
  (∀ a', a' ∈ l → attempts (storage st) !! id a' = None) →
  (∃ st1 st2, saveAttempt a st = (inr tt, st1)
              ∧ getAttempt (id a) st1 = (inr (Some a), st2))
  ∧ (∃ rs st', listAttempts (calls (CallSaveAttempt <$> l) st) = (inr rs, st')
       ∧ length rs = (size (attempts (storage st)) + length l)%nat
       ∧ (attempts (storage st) = ∅ → length rs = length l)
       ∧ ∀ a', a' ∈ l → a' ∈ rs).
Proof.
  intros Hc Hnd Hfresh. split.
  - destruct (saveAttempt_connected st a Hc) as (st1 & Hs & _ & Hc1 & Ha & _).
    destruct (getAttempt_connected st1 (id a) Hc1) as (st2 & Hg & _).
    exists st1, st2. split; [done|].
    by rewrite Hg, Ha, lookup_insert_eq.
  - destruct (calls_saved st l Hc) as [Hc' Ha].
    destruct (listAttempts_connected _ Hc') as (st' & Hl & _).
    eexists _, st'. split; [exact Hl|].
    rewrite length_fmap, length_map_to_list, Ha, saved_size by done.
    split_and!; [done| |].
    + intros ->. by rewrite map_size_empty.
    + intros a' Ha'. apply list_elem_of_fmap. exists (id a', a').
      split; [done|]. apply elem_of_map_to_list. by apply saved_lookup.
Qed.

Lemma save_then_get_and_list_witness :
  let st := load Scenario.emptyStorage in
  let a := Scenario.sampleAttempt "a1" in
  (∃ st1 st2, saveAttempt a st = (inr tt, st1)
              ∧ getAttempt "a1" st1 = (inr (Some a), st2))
  ∧ (∃ rs st',
       listAttempts
         (calls [CallSaveAttempt (Scenario.sampleAttempt "a1");
                 CallSaveAttempt (Scenario.sampleAttempt "a2")] st)
       = (inr rs, st')
       ∧ length rs = 2%nat).
Proof.
  intros st a.
  destruct (save_then_get_and_list st a
              [Scenario.sampleAttempt "a1"; Scenario.sampleAttempt "a2"])
    as [Hget (rs & st' & Hl & _ & Hn & _)].
  - reflexivity.
  - apply (bool_decide_unpack _). by vm_compute.
  - intros a' _. apply lookup_empty.
  - split; [exact Hget|]. exists rs, st'. split; [exact Hl|].
    apply Hn. reflexivity.
Defined.

(** *** The cached connection *)

Lemma getDb_cached st h : dbInstance st = Some h → getDb st = (inr h, st).
Proof. intros H. unfold getDb. by rewrite H. Qed.












(** The earlier version of [db.ts] opens a connection on every call. *)
Remark legacy_getDb_opens_a_connection_per_call :
  fst (DbLegacy.getDb Scenario.emptyStorage) = inr (mkIDBPDatabase 0 "win_db")
  ∧ fst (DbLegacy.getDb (snd (DbLegacy.getDb Scenario.emptyStorage)))
    = inr (mkIDBPDatabase 1 "win_db").
Proof. by vm_compute. Qed.

End DbSpec.

(** * Further properties of the recorder and of a recording session *)

Module SessionMore.
Import Host Recorder Main Scenario Shape.
Import SessionSpec.

(** *** The result of a capture *)

Lemma actualMimeType_nonempty c : actualMimeType c ≠ "".
Proof.
  unfold actualMimeType, or_str, or_undef.
  case_decide; [|done]. destruct (chosen c) as [t|]; [|done].
  unfold or_str. by case_decide.
Qed.





Lemma stopResult_sound t c : sound (stopResult t c).
Proof.
  split_and!; [apply actualMimeType_nonempty|done|].
  cbn [stopResult durationMs]. lia.
Qed.


(** *** What every capture of every run satisfies *)

Section Captures.
Context (E : Env) (Q : Capture → Prop).
Hypothesis Q_new : ∀ t s, Q (recordVideo E t s (Some 90000)).
Hypothesis Q_stop : ∀ c, Q c → Q (Recorder.stop c).
Hypothesis Q_autoStop : ∀ t c, Q c → Q (autoStop t c).
Hypothesis Q_data : ∀ d c, Q c → Q (onDataAvailable d c).
Hypothesis Q_confirm : ∀ t c,
  Q c → stopQueued (recorder c) = true →
  Q (fst (onStop t (withRecorder c (stopDelivered (recorder c))))).
Hypothesis Q_error : ∀ c,
  Q c → state (recorder c) = recording →
  Q (fst (onError (withRecorder c (fail (recorder c))))).

Lemma Forall_alter_captures (f : Capture → Capture) i (cs : list Capture) :
  (∀ c, Q c → Q (f c)) → Forall Q cs → Forall Q (alter f i cs).
Proof. intros Hf Hcs. apply Forall_alter; [done|]. intros c _. apply Hf. Qed.

Lemma step_captures w e :
  Forall Q (captures w) → Forall Q (captures (step E w e)).
Proof using All.
  intros Hc. destruct e; cbn [step].
  - unfold openTestRecorder. by through.
  - unfold clickStartCamera. by through.
  - unfold cameraGranted. by through.
  - unfold cameraDenied. by through.
  - unfold clickStartRecord. through; [|done].
    apply Forall_app. split; [done|]. by apply Forall_singleton.
  - unfold clickStop. through; [|done]. apply Forall_alter_captures; auto.
  - unfold clickBack. cbv zeta.
    match goal with
    | |- context [resetRecorder ?x] =>
        destruct (resetRecorder_fields x) as (-> & _)
    end.
    unfold cancelIfRecording. through; try done.
    apply Forall_alter_captures; auto.
  - by through.
  - unfold clickSave. by through.
  - unfold saveSettled. destruct (savesInFlight w); [done|].
    cbv zeta. rewrite loadAttempts_captures.
    match goal with
    | |- context [resetRecorder ?x] =>
        destruct (resetRecorder_fields x) as (-> & _)
    end.
    by through.
  - by through.
  - through. apply Forall_alter_captures; auto.
  - through. apply Forall_alter_captures; auto.
  - unfold stopEvent. destruct (captures w !! r) as [c|] eqn:Hcr; [|done].
    destruct (stopQueued (recorder c)) eqn:Hq; [|done].
    assert (Q c) as HQ by (rewrite Forall_lookup in Hc; by eapply Hc).
    pose proof (Q_confirm (now w) c HQ Hq) as HQ'.
    destruct (onStop (now w) _) as [c' [res|]]; cbn [fst] in HQ'.
    + unfold doneFulfilled. through; by apply Forall_insert.
    + through. by apply Forall_insert.
  - unfold errorEvent. destruct (captures w !! r) as [c|] eqn:Hcr; [|done].
    case_decide as Hs; [|done].
    assert (Q c) as HQ by (rewrite Forall_lookup in Hc; by eapply Hc).
    pose proof (Q_error c HQ Hs) as HQ'.
    destruct (onError _) as [c' [|]]; cbn [fst] in HQ'.
    + unfold doneRejected. through. by apply Forall_insert.
    + through. by apply Forall_insert.
Qed.

Lemma run_captures es w :
  Forall Q (captures w) → Forall Q (captures (run E es w)).
Proof using All.
  revert w. induction es as [|e es IH]; intros w Hw; [done|].
  apply IH. by apply step_captures.
Qed.

End Captures.

Lemma disciplined_new E t s : disciplined (recordVideo E t s (Some 90000)).
Proof. left. by rewrite RecorderSpec.recordVideo_recorder. Qed.

Lemma disciplined_stop c : disciplined c → disciplined (Recorder.stop c).
Proof.
  intros [(Hs & Hn & Hq & Hd)|[(Hs & Hn & Hd)|(Hs & Hn & Hd)]].
  - rewrite stop_recording by done. right. left. cbn. rewrite Hn, Hd. done.
  - unfold Recorder.stop. rewrite stopIfRecording_inactive by congruence.
    by right; left.
  - unfold Recorder.stop. rewrite stopIfRecording_inactive by congruence.
    by right; right.
Qed.

Lemma disciplined_autoStop t c : disciplined c → disciplined (autoStop t c).
Proof.
  intros H. unfold autoStop. destruct (autoStopAt c) as [due|]; [|done].
  destruct (due <=? t)%Z; [|done].
  apply (disciplined_stop (withAutoStopAt c None)). by destruct c.
Qed.

Lemma disciplined_data d c : disciplined c → disciplined (onDataAvailable d c).
Proof. unfold onDataAvailable. by repeat case_match. Qed.

Lemma disciplined_confirm t c :
  disciplined c → stopQueued (recorder c) = true →
  disciplined (fst (onStop t (withRecorder c (stopDelivered (recorder c))))).
Proof.
  intros [(Hs & Hn & Hq & Hd)|[(Hs & Hn & Hd)|(Hs & Hn & Hd)]] Hq';
    [congruence| |].
  - unfold onStop. cbn [done withRecorder].
    destruct (done c) as [|res|m] eqn:Hdc; [| |by destruct (Hd m)].
    all: right; left; cbn; rewrite ?Hdc; split_and!; try done.
  - unfold onStop. cbn [done withRecorder]. rewrite Hd. by right; right.
Qed.

Lemma disciplined_error c :
  disciplined c → state (recorder c) = recording →
  disciplined (fst (onError (withRecorder c (fail (recorder c))))).
Proof.
  intros [(Hs & Hn & Hq & Hd)|[(Hs & _)|(Hs & _)]] Hr; [|congruence..].
  unfold onError. cbn [done withRecorder]. rewrite Hd.
  right; right. cbn. by rewrite Hn.
Qed.

(** X2: In every run of the page, through any number of sessions and failures,
    each recorder is told to stop at most once, and only while it records:
    one that still records was never told, one that failed was never told,
    one that was told is inactive and has not failed, and none is ever
    paused. *)
Theorem stop_is_signalled_once_and_only_while_recording E p es :
  Forall (λ c, (stopCalls (recorder c) ≤ 1)%nat
               ∧ state (recorder c) ≠ paused
               ∧ (stopCalls (recorder c) = 1%nat →
                  state (recorder c) = inactive ∧ ∀ m, done c ≠ Rejected m)
               ∧ (state (recorder c) = recording →
                  stopCalls (recorder c) = 0%nat ∧ done c = Pending)
               ∧ (∀ m, done c = Rejected m →
                       stopCalls (recorder c) = 0%nat
                       ∧ state (recorder c) = inactive))
         (captures (run E es (init p))).
Proof.
  eapply Forall_impl.
  - apply (run_captures E disciplined); auto using disciplined_new,
      disciplined_stop, disciplined_autoStop, disciplined_data,
      disciplined_confirm, disciplined_error.
  - intros c [(Hs & Hn & Hq & Hd)|[(Hs & Hn & Hd)|(Hs & Hn & Hd)]];
      rewrite Hs, Hn; split_and!; try done; try lia.
    + intros m Hm. congruence.
    + intros m Hm. by destruct (Hd m).
Qed.

Lemma stop_is_signalled_once_and_only_while_recording_witness :
  let cs := captures (run webmOnly
                        (failed ++ [ClickStop; ClickBack; Elapse 90000000; TimerFires 0])
                        (init emptyStorage)) in
  (stopCalls ∘ recorder <$> cs) = [0%nat]
  ∧ (done <$> cs) = [Rejected "MediaRecorder error"]
  ∧ Forall (λ c, ∀ m, done c = Rejected m →
                      stopCalls (recorder c) = 0%nat
                      ∧ state (recorder c) = inactive) cs.
Proof.
  split; [reflexivity|]. split; [reflexivity|].
  eapply Forall_impl.
  - apply (stop_is_signalled_once_and_only_while_recording webmOnly
             emptyStorage (failed ++ [ClickStop; ClickBack; Elapse 90000000; TimerFires 0])).
  - intros c H. apply H.
Defined.

Lemma lookup_alter_done (f : Capture → Capture) (cs : list Capture) j i c :
  (∀ c, done (f c) = done c) →
  cs !! i = Some c →
  ∃ c', alter f j cs !! i = Some c' ∧ done c' = done c.
Proof.
  intros Hf Hc. rewrite list_lookup_alter. case_decide as Hj.
  - subst j. rewrite Hc. eexists. split; [reflexivity|]. apply Hf.
  - by exists c.
Qed.

Lemma step_done_stable E w e i c :
  captures w !! i = Some c → done c ≠ Pending →
  ∃ c', captures (step E w e) !! i = Some c' ∧ done c' = done c.
Proof.
  intros Hc Hd. destruct e; cbn [step].
  - unfold openTestRecorder. through. by exists c.
  - unfold clickStartCamera. through; by exists c.
  - unfold cameraGranted. through; by exists c.
  - unfold cameraDenied. through; by exists c.
  - unfold clickStartRecord. through; [|by exists c].
    exists c. split; [|done]. by apply lookup_app_l_Some.
  - unfold clickStop. through; [|by exists c].
    by apply lookup_alter_done; [apply done_stop|].
  - unfold clickBack. cbv zeta.
    match goal with
    | |- context [resetRecorder ?x] =>
        destruct (resetRecorder_fields x) as (-> & _)
    end.
    unfold cancelIfRecording. through; try by exists c.
    by apply lookup_alter_done; [apply done_stop|].
  - through. by exists c.
  - unfold clickSave. through; by exists c.
  - unfold saveSettled. destruct (savesInFlight w); [by exists c|].
    cbv zeta. rewrite loadAttempts_captures.
    match goal with
    | |- context [resetRecorder ?x] =>
        destruct (resetRecorder_fields x) as (-> & _)
    end.
    through. by exists c.
  - through. by exists c.
  - through. by apply lookup_alter_done; [apply done_autoStop|].
  - through. by apply lookup_alter_done; [apply done_onDataAvailable|].
  - unfold stopEvent. destruct (captures w !! r) as [c0|] eqn:Hcr;
      [|by exists c].
    destruct (stopQueued (recorder c0)); [|by exists c].
    destruct (decide (r = i)) as [->|Hne].
    + assert (c0 = c) as -> by congruence.
      unfold onStop. cbn [done withRecorder].
      destruct (done c) eqn:Hdc; [done| |]; through.
      all: rewrite list_lookup_insert_eq by (by eapply lookup_lt_Some).
      all: eexists; split; [reflexivity|]; by cbn.
    + destruct (onStop (now w) _) as [c' [res|]].
      * unfold doneFulfilled. through.
        all: rewrite list_lookup_insert_ne by done; by exists c.
      * through. rewrite list_lookup_insert_ne by done. by exists c.
  - unfold errorEvent. destruct (captures w !! r) as [c0|] eqn:Hcr;
      [|by exists c].
    case_decide as Hs; [|by exists c].
    destruct (decide (r = i)) as [->|Hne].
    + assert (c0 = c) as -> by congruence.
      unfold onError. cbn [done withRecorder].
      destruct (done c) eqn:Hdc; [done| |]; through.
      all: rewrite list_lookup_insert_eq by (by eapply lookup_lt_Some).
      all: eexists; split; [reflexivity|]; by cbn.
    + destruct (onError _) as [c' [|]].
      * unfold doneRejected. through.
        rewrite list_lookup_insert_ne by done. by exists c.
      * through. rewrite list_lookup_insert_ne by done. by exists c.
Qed.

(** X3: Once the [done] promise of a capture is fulfilled or rejected, nothing
    that happens to the page afterwards changes it: the capture is still
    there and [done] holds the same outcome. *)
Theorem settled_done_never_changes E w es i c :
  captures w !! i = Some c → done c ≠ Pending →
  ∃ c', captures (run E es w) !! i = Some c' ∧ done c' = done c.
Proof.
  revert w c. induction es as [|e es IH]; intros w c Hc Hd; [by exists c|].
  destruct (step_done_stable E w e i c Hc Hd) as (c1 & Hc1 & Hd1).
  destruct (IH (step E w e) c1 Hc1) as (c' & Hc' & Hd'); [congruence|].
  exists c'. split; [done|congruence].
Qed.

Lemma settled_done_never_changes_witness :
  let w := run webmOnly failed (init emptyStorage) in
  ∃ c', captures (run webmOnly [StopEvent 0; ClickBack; TimerFires 0] w)
          !! 0%nat = Some c'
        ∧ done c' = Rejected "MediaRecorder error".
Proof.
  intros w.
  destruct (settled_done_never_changes webmOnly w
              [StopEvent 0; ClickBack; TimerFires 0] 0
              (mkCapture (mkMediaRecorder 0 inactive "video/webm" false 0)
                 (Some "video/webm") [] 0 (Rejected "MediaRecorder error")
                 (Some 90000000)))
    as (c' & Hc' & Hd'); [reflexivity|discriminate|].
  exists c'. split; [exact Hc'|exact Hd'].
Defined.

(** *** The cancellation flag *)

(** X4: The cancellation flag is down whenever a handler, a listener or a
    reaction starts: from a page on which it is down, no sequence of events
    leaves it up, since the handler of Back, the only one to raise it,
    lowers it again before it returns. *)
Theorem cancellation_flag_is_down_between_events E es w :
  isCancelling w = false → isCancelling (run E es w) = false.
Proof.
  revert w. induction es as [|e es IH]; intros w Hw; [done|].
  apply IH. by apply step_flag.
Qed.

Lemma cancellation_flag_is_down_between_events_witness :
  isCancelling (run webmOnly cancelled (init emptyStorage)) = false.
Proof.
  apply cancellation_flag_is_down_between_events. reflexivity.
Defined.

(** *** Back, twice *)

Lemma resetRecorder_idempotent w :
  resetRecorder (resetRecorder w) = resetRecorder w.
Proof.
  destruct w as [cs cr ic ct rv lp ? ? ? ? ? ? ? ? ? ? ? ? ? ? ? ? ?].
  destruct lp, cs; reflexivity.
Qed.

Lemma cancelIfRecording_idle w :
  currentRecording w = None → cancelIfRecording w = w.
Proof. intros H. unfold cancelIfRecording. by rewrite H. Qed.

(** X5: Pressing Back a second time changes nothing: the page is the one the
    first press left, so no recorder is told to stop again and no stream is
    released again. *)
Theorem back_twice_is_back_once w : clickBack (clickBack w) = clickBack w.
Proof.
  unfold clickBack at 1. cbv zeta.
  rewrite cancelIfRecording_idle.
  - unfold clickBack. apply resetRecorder_idempotent.
  - unfold clickBack. apply resetRecorder_fields.
Qed.

(** *** A capture that failed yields no clip *)

(** X6: The recorder fails while recording and its [stop] event follows, as the
    platform sends it: [done] stays rejected, no clip is taken over, the
    save section is not shown, and the stream is neither released nor
    dropped. *)
Theorem failed_capture_yields_no_clip E w r c :
  captures w !! r = Some c →
  state (recorder c) = recording →
  done c = Pending →
  let w' := run E [ErrorEvent r; StopEvent r] w in
  (done <$> captures w' !! r) = Some (Rejected "MediaRecorder error")
  ∧ recordedVideo w' = recordedVideo w
  ∧ saveSectionShown w' = saveSectionShown w
  ∧ lastPreviewUrl w' = lastPreviewUrl w
  ∧ released w' = released w
  ∧ currentStream w' = currentStream w.
Proof.
  intros Hc Hs Hd. cbn [run foldl step].
  rewrite (errorEvent_rejects _ _ _ Hc Hs Hd).
  assert (r < length (captures w))%nat as Hr by by eapply lookup_lt_Some.
  erewrite stopEvent_settled; cycle 1.
  - unfold doneRejected. assignments. by rewrite list_lookup_insert_eq.
  - done.
  - done.
  - unfold doneRejected. assignments.
    rewrite list_lookup_insert_eq by by rewrite length_insert.
    by split_and!.
Qed.

Lemma failed_capture_yields_no_clip_witness :
  let w := run webmOnly (begin Db.plank) (init emptyStorage) in
  let w' := run webmOnly [ErrorEvent 0; StopEvent 0] w in
  recordedVideo w' = recordedVideo w
  ∧ saveSectionShown w' = saveSectionShown w
  ∧ released w' = released w.
Proof.
  intros w w'.
  destruct (failed_capture_yields_no_clip webmOnly w 0
              (recordVideo webmOnly 0 0 (Some 90000)))
    as (_ & Hv & Hsec & _ & Hrel & _); try reflexivity.
  split_and!; [exact Hv|exact Hsec|exact Hrel].
Defined.

(** *** The camera is refused *)

(** X7: If access to the camera is refused, the page reports it and holds no
    stream: Start Camera stays enabled for another try, and Start Recording
    and Stop, even if they are clicked, start and stop nothing. *)
Theorem refused_camera_leaves_nothing_to_record E p t :
  let w := run E [SelectTest t; ClickStartCamera; CameraDenied] (init p) in
  currentStream w = None
  ∧ acquired w = 0%nat
  ∧ cameraRequests w = 0%nat
  ∧ alerts w = ["Camera access denied or unavailable."]
  ∧ startCameraDisabled w = false
  ∧ startRecordDisabled w = true
  ∧ step E w ClickStartRecord = w
  ∧ step E w ClickStop = w.
Proof.
  unfold init, loadAttempts. cbn [db].
  generalize (Db.listAttempts (Db.load p)). intros d.
  split_and!; vm_compute; reflexivity.
Qed.

(** *** A session that completes *)







End SessionMore.

(** * Further properties of saving from the recording screen *)

Module SavingMore.
Import Host Recorder Main Scenario Shape.
Import SessionSpec SessionMore.

(** *** When Save stores nothing *)

(** X10: Save leaves the page and the store exactly as they are unless a
    clip is recorded and a test is selected; with both but a score that is
    empty or all white space, it asks for a score and does nothing else:
    nothing is stored and no save is under way. *)
Theorem save_needs_clip_test_and_score uuid timestamp w :
  (recordedVideo w = None ∨ currentTestType w = None →
   clickSave uuid timestamp w = w)
  ∧ (is_Some (recordedVideo w) → is_Some (currentTestType w) →
     trim (scoreInput w) = "" →
     clickSave uuid timestamp w = alert "Please enter a score." w
     ∧ alerts (clickSave uuid timestamp w)
       = alerts w ++ ["Please enter a score."]
     ∧ db (clickSave uuid timestamp w) = db w
     ∧ savesInFlight (clickSave uuid timestamp w) = savesInFlight w
     ∧ recordedVideo (clickSave uuid timestamp w) = recordedVideo w
     ∧ scoreInput (clickSave uuid timestamp w) = scoreInput w).
Proof.
  split.
  - intros H. unfold clickSave.
    destruct (recordedVideo w) as [rv|]; [|done].
    destruct (currentTestType w) as [t|]; [|done].
    by destruct H.
  - intros [rv Hv] [t Ht] Hs.
    assert (clickSave uuid timestamp w = alert "Please enter a score." w)
      as ->.
    { unfold clickSave. rewrite Hv, Ht. by rewrite decide_True. }
    by destruct w.
Qed.

Lemma save_needs_clip_test_and_score_witness :
  let w := run webmOnly
             (begin Db.plank
              ++ [ClickStop; StopEvent 0;
                  TypeScore (String.append noBreakSpace
                               (String.append " " ideographicSpace))])
             (init emptyStorage) in
  clickSave "a1" "t" w = alert "Please enter a score." w
  ∧ db (clickSave "a1" "t" w) = db w
  ∧ clickSave "a1" "t" (run webmOnly (begin Db.plank) (init emptyStorage))
    = run webmOnly (begin Db.plank) (init emptyStorage).
Proof.
  intros w.
  destruct (save_needs_clip_test_and_score "a1" "t" w) as [_ Hblank].
  destruct Hblank as (Ha & _ & Hd & _).
  - exists (stopResult 0 (recordVideo webmOnly 0 0 (Some 90000))).
    vm_compute. reflexivity.
  - exists Db.plank. vm_compute. reflexivity.
  - vm_compute. reflexivity.
  - split; [exact Ha|]. split; [exact Hd|].
    apply (save_needs_clip_test_and_score "a1" "t").
    left. vm_compute. reflexivity.
Defined.

(** *** Save, and what follows it *)

Lemma resetRecorder_page w :
  db (resetRecorder w) = db w
  ∧ savesInFlight (resetRecorder w) = savesInFlight w
  ∧ alerts (resetRecorder w) = alerts w
  ∧ testSelectShown (resetRecorder w) = true
  ∧ recordUIShown (resetRecorder w) = false
  ∧ scoreInput (resetRecorder w) = ""
  ∧ currentTestType (resetRecorder w) = None.
Proof. unfold resetRecorder. by through. Qed.

Lemma loadAttempts_db w : db (loadAttempts w) = snd (Db.listAttempts (db w)).
Proof. by destruct w. Qed.

Lemma loadAttempts_page w :
  recordedVideo (loadAttempts w) = recordedVideo w
  ∧ currentStream (loadAttempts w) = currentStream w
  ∧ released (loadAttempts w) = released w
  ∧ savesInFlight (loadAttempts w) = savesInFlight w
  ∧ alerts (loadAttempts w) = alerts w
  ∧ testSelectShown (loadAttempts w) = testSelectShown w
  ∧ recordUIShown (loadAttempts w) = recordUIShown w
  ∧ scoreInput (loadAttempts w) = scoreInput w
  ∧ currentTestType (loadAttempts w) = currentTestType w.
Proof. by destruct w. Qed.

Lemma clickSave_saves uuid timestamp w rv t st' :
  recordedVideo w = Some rv →
  currentTestType w = Some t →
  trim (scoreInput w) ≠ "" →
  Db.saveAttempt (attemptOf uuid timestamp t (trim (scoreInput w)) rv) (db w)
  = (inr tt, st') →
  clickSave uuid timestamp w
  = set_savesInFlight (S (savesInFlight w)) (set_db st' w).
Proof.
  intros Hv Ht Hs Hsave. unfold clickSave. rewrite Hv, Ht.
  rewrite decide_False by done. unfold attemptOf in Hsave.
  by rewrite Hsave.
Qed.

(** X11: With a clip, a test and a score, Save stores under the fresh id an
    unverified attempt that carries the trimmed score and the clip with its
    type and duration; once the store has answered, the page says so, goes
    back to the test list with everything reset, releases a stream it may
    still hold, and the attempt can be read back. *)
Theorem save_stores_the_clip_and_resets E uuid timestamp w rv t :
  recordedVideo w = Some rv →
  currentTestType w = Some t →
  trim (scoreInput w) ≠ "" →
  Db.connected (db w) →
  let a := attemptOf uuid timestamp t (trim (scoreInput w)) rv in
  let w1 := step E w (ClickSave uuid timestamp) in
  let w2 := step E w1 SaveSettled in
  Db.attempts (Db.storage (db w1))
  = <[uuid := a]> (Db.attempts (Db.storage (db w)))
  ∧ savesInFlight w1 = S (savesInFlight w)
  ∧ fst (Db.getAttempt uuid (db w2)) = inr (Some a)
  ∧ savesInFlight w2 = savesInFlight w
  ∧ alerts w2 = alerts w ++ ["Attempt saved!"]
  ∧ testSelectShown w2 = true
  ∧ recordUIShown w2 = false
  ∧ recordedVideo w2 = None
  ∧ currentTestType w2 = None
  ∧ scoreInput w2 = ""
  ∧ currentStream w2 = None
  ∧ released w2
    = released w ++ match currentStream w with Some s => [s] | None => [] end.
Proof.
  intros Hv Ht Hs Hc a w1 w2.
  destruct (DbSpec.saveAttempt_connected (db w) a Hc)
    as (st' & Hsave & _ & Hc' & Ha & _).
  assert (w1 = set_savesInFlight (S (savesInFlight w)) (set_db st' w)) as Hw1.
  { subst w1. cbn [step]. by apply clickSave_saves with rv t. }
  clearbody w1. subst w1.
  assert (w2 = loadAttempts
                 (resetRecorder
                    (alert "Attempt saved!"
                       (set_savesInFlight (savesInFlight w) (set_db st' w)))))
    as Hw2 by done.
  clearbody w2. subst w2.
  set (w3 := alert "Attempt saved!"
               (set_savesInFlight (savesInFlight w) (set_db st' w))).
  destruct (loadAttempts_page (resetRecorder w3))
    as (-> & -> & -> & -> & -> & -> & -> & -> & ->).
  rewrite loadAttempts_db.
  destruct (resetRecorder_page w3) as (-> & -> & -> & -> & -> & -> & ->).
  destruct (resetRecorder_fields w3) as (_ & -> & _ & -> & _ & -> & _).
  subst w3. assignments.
  destruct (DbSpec.listAttempts_connected st' Hc')
    as (st2 & -> & _ & Hc2 & Ha2 & _).
  cbn [snd].
  destruct (DbSpec.getAttempt_connected st2 uuid Hc2) as (st3 & -> & _).
  cbn [fst snd]. rewrite Ha2, Ha.
  split_and!; try done. by rewrite lookup_insert_eq.
Qed.

Lemma save_stores_the_clip_and_resets_witness :
  let w := run webmOnly
             (begin Db.plank
              ++ [ClickStop; StopEvent 0;
                  TypeScore (String.append noBreakSpace
                               (String.append " 62 s "  ideographicSpace))])
             (init emptyStorage) in
  let w2 := step webmOnly (step webmOnly w (ClickSave "a1" "t")) SaveSettled in
  ∃ a, fst (Db.getAttempt "a1" (db w2)) = inr (Some a)
       ∧ Db.scoreText a = "62 s"
       ∧ alerts w2 = alerts w ++ ["Attempt saved!"]
       ∧ testSelectShown w2 = true.
Proof.
  intros w w2.
  destruct (save_stores_the_clip_and_resets webmOnly "a1" "t" w
              (stopResult 0 (recordVideo webmOnly 0 0 (Some 90000)))
              Db.plank)
    as (_ & _ & Hg & _ & Ha & Ht & _).
  - reflexivity.
  - reflexivity.
  - apply (bool_decide_unpack _). by vm_compute.
  - vm_compute. split; [reflexivity|]. eexists. reflexivity.
  - eexists. split_and!; [exact Hg|reflexivity|exact Ha|exact Ht].
Defined.

(** *** What the page keeps true of the store *)

Lemma step_db E w e :
  (∀ uuid timestamp, e ≠ ClickSave uuid timestamp) → e ≠ SaveSettled →
  db (step E w e) = db w.
Proof.
  intros Hsave Hsettled. destruct e; cbn [step].
  - unfold openTestRecorder. by through.
  - unfold clickStartCamera. by through.
  - unfold cameraGranted. by through.
  - unfold cameraDenied. by through.
  - unfold clickStartRecord. by through.
  - unfold clickStop. by through.
  - unfold clickBack. cbv zeta.
    match goal with
    | |- context [resetRecorder ?x] =>
        destruct (resetRecorder_page x) as (-> & _)
    end.
    unfold cancelIfRecording. by through.
  - by through.
  - by destruct (Hsave uuid timestamp).
  - done.
  - by through.
  - by through.
  - by through.
  - unfold stopEvent, onStop, doneFulfilled. by through.
  - unfold errorEvent, onError, doneRejected. by through.
Qed.

Lemma step_recordedVideo E w e :
  recordedVideo (step E w e) = recordedVideo w
  ∨ recordedVideo (step E w e) = None
  ∨ ∃ t c, recordedVideo (step E w e) = Some (stopResult t c).
Proof.
  destruct e; cbn [step].
  - right. left. unfold openTestRecorder. by through.
  - left. unfold clickStartCamera. by through.
  - left. unfold cameraGranted. by through.
  - left. unfold cameraDenied. by through.
  - left. unfold clickStartRecord. by through.
  - left. unfold clickStop. by through.
  - right. left. unfold clickBack. apply resetRecorder_fields.
  - by left.
  - left. unfold clickSave. by through.
  - unfold saveSettled. destruct (savesInFlight w); [by left|].
    right. left. cbv zeta. rewrite loadAttempts_recordedVideo.
    apply resetRecorder_fields.
  - by left.
  - by left.
  - by left.
  - unfold stopEvent. destruct (captures w !! r) as [c|]; [|by left].
    destruct (stopQueued (recorder c)); [|by left].
    unfold onStop. cbn [done withRecorder].
    destruct (done c); [|by left..].
    unfold doneFulfilled. through; [by left| |]; right; right; by eexists _, _.
  - left. unfold errorEvent, onError, doneRejected. by through.
Qed.

Lemma listAttempts_state st : snd (Db.listAttempts st) = snd (Db.getDb st).
Proof.
  unfold Db.listAttempts, Db.bind, Db.onStorage.
  destruct (Db.getDb st) as [[e|h] [d p]]; [done|].
  unfold Idb.getAll. cbn [Db.storage Db.dbInstance].
  by destruct (_ !! "attempts").
Qed.

Lemma attemptOf_wellFormed uuid timestamp t score rv :
  score ≠ "" → sound rv →
  wellFormed (attemptOf uuid timestamp t score rv).
Proof.
  intros Hs (Hm & Hb & Hd). split_and!; [done..|].
  by eexists _, _, _.
Qed.

Section Orderly.
Context (P : string → Db.Attempt → Prop).
Hypothesis P_attemptOf : ∀ uuid timestamp t score rv,
  score ≠ "" → sound rv → P uuid (attemptOf uuid timestamp t score rv).

Lemma init_orderly p :
  Db.provisionable p = true → map_Forall P (Db.attempts p) →
  orderly P (Idb.mkIDBPDatabase (Idb.opened p) "win_db") (S (Idb.opened p))
          (init p).
Proof.
  intros Hp Hsh. unfold orderly, init.
  rewrite loadAttempts_recordedVideo, loadAttempts_db, listAttempts_state.
  cbn [db recordedVideo].
  destruct (DbSpec.getDb_connected (Db.load p) Hp)
    as (h & st1 & -> & Hi & Hc & _ & Hs & -> & Ho).
  cbn [snd]. split_and!; try done.
  by rewrite DbSpec.attempts_store, Hs.
Qed.

Lemma step_orderly E h n w e : orderly P h n w → orderly P h n (step E w e).
Proof using P_attemptOf.
  intros (Hc & Hi & Ho & Hsh & Hv).
  assert (∀ r, recordedVideo (step E w e) = Some r → sound r) as Hv'.
  { intros r Hr.
    destruct (step_recordedVideo E w e) as [H|[H|(t & c & H)]].
    - apply Hv. congruence.
    - congruence.
    - assert (r = stopResult t c) as -> by congruence.
      apply stopResult_sound. }
  destruct e as [t| | | | | | |sc|uuid timestamp| |dt|r|r d|r|r];
    try (unfold orderly; rewrite step_db by done; by split_and!);
    cycle 1.
  { clear Hv'. cbn [step]. unfold saveSettled.
    destruct (savesInFlight w); [done|]. cbv zeta.
    unfold orderly.
    rewrite loadAttempts_recordedVideo, loadAttempts_db, listAttempts_state.
    match goal with
    | |- context [resetRecorder ?x] =>
        destruct (resetRecorder_page x) as (-> & _);
        destruct (resetRecorder_fields x) as (_ & -> & _)
    end.
    assignments. rewrite (DbSpec.getDb_cached _ h Hi). by split_and!. }
  clear Hv'. cbn [step]. unfold clickSave.
  assert (orderly P h n w) as Hw by done.
  destruct (recordedVideo w) as [rv|] eqn:Hrv; [|done].
  destruct (currentTestType w) as [t|]; [|done].
  case_decide as Hs.
  { unfold orderly. assignments. by rewrite Hrv. }
  pose (a := attemptOf uuid timestamp t (trim (scoreInput w)) rv).
  destruct (DbSpec.saveAttempt_connected (db w) a Hc)
    as (st' & Hsave & _ & Hc' & Ha & Hk).
  destruct (Hk h Hi) as [Hi' Ho'].
  unfold a, attemptOf in Hsave. rewrite Hsave.
  unfold orderly. assignments. rewrite Hrv.
  split_and!; try done; [congruence|].
  rewrite Ha. apply map_Forall_insert_2; [|done].
  apply P_attemptOf; [done|]. by apply Hv.
Qed.

Lemma run_orderly E h n es w : orderly P h n w → orderly P h n (run E es w).
Proof using P_attemptOf.
  revert w. induction es as [|e es IH]; intros w Hw; [done|].
  apply IH. by apply step_orderly.
Qed.

End Orderly.

(** X12: If the store starts with each attempt under its own id, unverified,
    scored and with a typed clip of a duration that is not negative, then
    whatever happens on the page, it stays so: the page never stores an
    attempt without a score, without a clip or under another id. *)
Theorem stored_attempts_stay_well_formed E p es :
  Db.provisionable p = true →
  shelved (Db.attempts p) →
  shelved (Db.attempts (Db.storage (db (run E es (init p))))).
Proof.
  intros Hp Hsh.
  eapply (run_orderly (λ k a, Db.id a = k ∧ wellFormed a)).
  - intros. split; [done|]. by apply attemptOf_wellFormed.
  - by apply init_orderly.
Qed.

Lemma stored_attempts_stay_well_formed_witness :
  shelved (Db.attempts
             (Db.storage
                (db (run webmOnly cancelledThenSaved (init emptyStorage))))).
Proof.
  apply stored_attempts_stay_well_formed; [reflexivity|].
  apply map_Forall_empty.
Defined.

End SavingMore.

(** * Further properties of the attempt store *)

Module DbMore.
Import Host Idb Db Shape.
Import DbSpec.

(** *** Saving under an id that is taken *)

(** X14: Saving under an id that is already in the store replaces the record:
    the later attempt is the one read back, the listing does not grow by
    two, and the records under other ids, present or not, read as before. *)
Theorem save_replaces_and_leaves_others st a a' j :
  connected st →
  id a' = id a →
  j ≠ id a →
  let st2 := calls [CallSaveAttempt a; CallSaveAttempt a'] st in
  fst (getAttempt (id a) st2) = inr (Some a')
  ∧ fst (getAttempt j st2) = inr (attempts (storage st) !! j)
  ∧ attempts (storage st2) = <[id a := a']> (attempts (storage st))
  ∧ ∃ rs, fst (listAttempts st2) = inr rs
          ∧ length rs = size (<[id a := a']> (attempts (storage st))).
Proof.
  intros Hc Hid Hj st2.
  destruct (calls_saved st [a; a'] Hc) as [Hc2 Ha].
  change (calls (CallSaveAttempt <$> [a; a']) st) with st2 in Hc2, Ha.
  clearbody st2.
  assert (attempts (storage st2) = <[id a := a']> (attempts (storage st)))
    as Ha'.
  { rewrite Ha. unfold saved. cbn [foldl]. rewrite Hid.
    apply insert_insert_eq. }
  destruct (getAttempt_connected st2 (id a) Hc2) as (? & -> & _).
  destruct (getAttempt_connected st2 j Hc2) as (? & -> & _).
  destruct (listAttempts_connected st2 Hc2) as (? & -> & _).
  cbn [fst]. rewrite Ha'. split_and!.
  - by rewrite lookup_insert_eq.
  - by rewrite lookup_insert_ne.
  - done.
  - eexists. split; [done|]. by rewrite length_fmap, length_map_to_list.
Qed.

Lemma save_replaces_and_leaves_others_witness :
  let a := Scenario.sampleAttempt "a1" in
  let a' := mkAttempt "a1" squat "2024-02-02T00:00:00.000Z" false "30 reps"
              None None None in
  let st2 := calls [CallSaveAttempt a; CallSaveAttempt a']
               (load Scenario.emptyStorage) in
  fst (getAttempt "a1" st2) = inr (Some a')
  ∧ fst (getAttempt "a2" st2) = inr None.
Proof.
  intros a a' st2.
  destruct (save_replaces_and_leaves_others (load Scenario.emptyStorage)
              a a' "a2") as (H1 & H2 & _); [reflexivity|reflexivity|done|].
  split; [exact H1|exact H2].
Defined.

(** *** A database the module cannot use *)

(** X15: A database left at a later version is refused: every function of the
    module rejects with a version error, nothing is cached and nothing is
    written, so that the next call tries to open it again. *)
Theorem newer_database_is_refused st a i :
  dbInstance st = None →
  (1 < version (database "win_db" (storage st)))%N →
  getDb st = (inl VersionError, st)
  ∧ saveAttempt a st = (inl VersionError, st)
  ∧ listAttempts st = (inl VersionError, st)
  ∧ getAttempt i st = (inl VersionError, st).
Proof.
  intros Hi Hv.
  assert (getDb st = (inl VersionError, st)) as Hg.
  { unfold getDb, openDB. rewrite Hi.
    destruct (N.ltb_spec 1 (version (database "win_db" (storage st))));
      [|lia].
    destruct st as [d p]. cbn in *. by subst. }
  unfold saveAttempt, listAttempts, getAttempt, bind. by rewrite Hg.
Qed.

Lemma newer_database_is_refused_witness :
  saveAttempt (Scenario.sampleAttempt "a1") (load tooNew)
  = (inl VersionError, load tooNew).
Proof.
  by destruct (newer_database_is_refused (load tooNew)
                 (Scenario.sampleAttempt "a1") "a1" eq_refl eq_refl)
    as (_ & H & _).
Defined.

(** X16: A database at version 1 that lacks the store is opened and the
    connection is cached, but saving, listing and reading reject with a
    not-found error and the databases stay as they were: the upgrade that
    would create the store does not run. *)
Theorem missing_store_is_not_created st a i :
  dbInstance st = None →
  version (database "win_db" (storage st)) = 1%N →
  store (storage st) = None →
  ∃ st', getDb st
         = (inr (mkIDBPDatabase (opened (storage st)) "win_db"), st')
    ∧ dbInstance st' = Some (mkIDBPDatabase (opened (storage st)) "win_db")
    ∧ databases (storage st') = databases (storage st)
    ∧ saveAttempt a st = (inl NotFoundError, st')
    ∧ listAttempts st = (inl NotFoundError, st')
    ∧ getAttempt i st = (inl NotFoundError, st').
Proof.
  intros Hi Hv Hs.
  assert (getDb st
          = (inr (mkIDBPDatabase (opened (storage st)) "win_db"),
             mkState (Some (mkIDBPDatabase (opened (storage st)) "win_db"))
                     (mkStorage (databases (storage st))
                                (S (opened (storage st)))))) as Hg.
  { unfold getDb, openDB. rewrite Hi, Hv. done. }
  eexists. split; [exact Hg|]. split; [done|]. split; [done|].
  unfold saveAttempt, listAttempts, getAttempt, bind, onStorage.
  rewrite Hg. unfold put, get, getAll. cbn [name storage dbInstance].
  unfold store, database in *. cbn [databases]. by rewrite Hs.
Qed.

Lemma missing_store_is_not_created_witness :
  ∃ st', saveAttempt (Scenario.sampleAttempt "a1") (load storeless)
         = (inl NotFoundError, st')
         ∧ databases (storage st') = databases storeless.
Proof.
  destruct (missing_store_is_not_created (load storeless)
              (Scenario.sampleAttempt "a1") "a1" eq_refl eq_refl eq_refl)
    as (st' & _ & _ & Hd & Hs & _).
  exists st'. split; [exact Hs|exact Hd].
Defined.

(** *** The earlier version of the module *)

Lemma legacy_getDb_ready p :
  legacyReady p →
  ∃ p', DbLegacy.getDb p = (inr (mkIDBPDatabase (opened p) "win_db"), p')
        ∧ opened p' = S (opened p)
        ∧ store p' = Some (attempts p)
        ∧ legacyReady p'.
Proof.
  unfold DbLegacy.getDb, DbLegacy.DB_NAME, DbLegacy.DB_VERSION, openDB.
  intros [[Hv Hs]|[Hv [recs Hs]]]; rewrite Hv; cbn [N.ltb N.compare].
  - unfold DbLegacy.upgrade, createObjectStore, contains.
    unfold store in Hs. rewrite Hs.
    rewrite bool_decide_eq_false_2 by by intros [? ?].
    eexists. split; [reflexivity|]. split; [done|].
    assert (store
              {| databases :=
                   <["win_db" :=
                       {| version := 1;
                          objectStores :=
                            <["attempts" := ∅]>
                              (objectStores (database "win_db" p)) |}]>
                     (databases p);
                 opened := S (opened p) |} = Some ∅) as Hs'.
    { unfold store, database. cbn [databases]. rewrite lookup_insert_eq.
      cbn. by rewrite lookup_insert_eq. }
    split.
    + rewrite Hs'. rewrite attempts_store. unfold store. by rewrite Hs.
    + right. split; [|by rewrite Hs'].
      unfold database. cbn [databases]. by rewrite lookup_insert_eq.
  - eexists. split; [reflexivity|]. split; [done|].
    split.
    + rewrite attempts_store. unfold store, database in *.
      cbn [databases]. by rewrite Hs.
    + right. split; [done|]. unfold store, database in *.
      cbn [databases]. by rewrite Hs.
Qed.

(** X17: The earlier [db.ts] saves and lists like the current one, but opens a
    connection on each call: after a save and a listing two more
    connections have been opened. *)
Theorem legacy_opens_a_connection_per_call p a :
  legacyReady p →
  ∃ p1 p2 rs,
    DbLegacy.saveAttempt a p = (inr tt, p1)
    ∧ opened p1 = S (opened p)
    ∧ attempts p1 = <[id a := a]> (attempts p)
    ∧ DbLegacy.listAttempts p1 = (inr rs, p2)
    ∧ opened p2 = S (S (opened p))
    ∧ a ∈ rs
    ∧ length rs = size (<[id a := a]> (attempts p)).
Proof.
  intros Hp.
  destruct (legacy_getDb_ready p Hp) as (p0 & Hg & Ho & Hs & Hp0).
  destruct (put_store (mkIDBPDatabase (opened p) "win_db") a p0 _
              eq_refl Hs) as (p1 & Hput & Ho1 & Hs1).
  assert (legacyReady p1) as Hp1.
  { right. split; [|by rewrite Hs1].
    destruct Hp0 as [[_ H]|[Hv _]]; [by rewrite Hs in H|].
    revert Hput. unfold put. cbn [name].
    unfold store in Hs. rewrite Hs. intros [= <-].
    unfold database at 1. cbn [databases]. by rewrite lookup_insert_eq. }
  destruct (legacy_getDb_ready p1 Hp1) as (p2 & Hg2 & Ho2 & Hs2 & _).
  exists p1, p2, ((map_to_list (attempts p1)).*2).
  assert (attempts p1 = <[id a := a]> (attempts p)) as Ha
    by by rewrite attempts_store, Hs1.
  split_and!.
  - unfold DbLegacy.saveAttempt, DbLegacy.bind. by rewrite Hg, Hput.
  - congruence.
  - done.
  - unfold DbLegacy.listAttempts, DbLegacy.bind. rewrite Hg2.
    by rewrite (getAll_store (mkIDBPDatabase (opened p1) "win_db") _ _
                  eq_refl Hs2).
  - congruence.
  - apply list_elem_of_fmap. exists (id a, a). split; [done|].
    apply elem_of_map_to_list. by rewrite Ha, lookup_insert_eq.
  - by rewrite length_fmap, length_map_to_list, Ha.
Qed.

Lemma legacy_opens_a_connection_per_call_witness :
  ∃ p1 p2 rs,
    DbLegacy.saveAttempt (Scenario.sampleAttempt "a1") Scenario.emptyStorage
    = (inr tt, p1)
    ∧ DbLegacy.listAttempts p1 = (inr rs, p2)
    ∧ opened p2 = 2%nat.
Proof.
  destruct (legacy_opens_a_connection_per_call Scenario.emptyStorage
              (Scenario.sampleAttempt "a1"))
    as (p1 & p2 & rs & Hs & _ & _ & Hl & Ho & _).
  - left. split; reflexivity.
  - exists p1, p2, rs. split_and!; [exact Hs|exact Hl|exact Ho].
Defined.

End DbMore.

(** * Further properties of the camera *)

Module CameraMore.
Import Host Recorder Main Scenario.
Import SessionSpec.

(** X18: Start Camera pressed while a stream is still held, as after a failed
    recording: the held stream is released first, once, and the stream that
    is granted becomes the current one and the source of the preview. *)
Theorem restarting_the_camera_releases_the_held_stream E w s :
  currentStream w = Some s →
  cameraRequests w = 0%nat →
  let w' := run E [ClickStartCamera; CameraGranted] w in
  released w' = released w ++ [s]
  ∧ currentStream w' = Some (acquired w)
  ∧ acquired w' = S (acquired w)
  ∧ cameraRequests w' = 0%nat
  ∧ previewSource w' = LiveStream (acquired w)
  ∧ startCameraDisabled w' = true
  ∧ startRecordDisabled w' = false
  ∧ captures w' = captures w.
Proof.
  intros Hs Hr. cbn [run foldl step].
  unfold clickStartCamera. rewrite Hs.
  unfold cameraGranted. assignments. rewrite Hr. by assignments.
Qed.

Lemma restarting_the_camera_releases_the_held_stream_witness :
  let w := run webmOnly (begin Db.plank ++ [ErrorEvent 0]) (init emptyStorage) in
  let w' := run webmOnly [ClickStartCamera; CameraGranted] w in
  released w' = released w ++ [0%nat]
  ∧ currentStream w' = Some (acquired w).
Proof.
  intros w w'.
  destruct (restarting_the_camera_releases_the_held_stream webmOnly w 0)
    as (Hr & Hs & _); [reflexivity|reflexivity|].
  split; [exact Hr|exact Hs].
Defined.

End CameraMore.
